(** * Prefix-cache core of sglang: prefetch manager, eviction policies and
      cache time-series metrics.

    A shallow embedding of
      - python/sglang/srt/managers/prefetch_manager.py
      - python/sglang/srt/mem_cache/evict_policy.py
      - python/sglang/srt/metrics/cache_timeseries.py
    Python objects live in an arena addressed by integer handles, methods
    that mutate them are computations of a state-and-exception monad over
    the world (arena, allocator, CUDA streams and events, call trace). *)

From Stdlib Require Import ZArith List Bool Lia Lqa String QArith.
From Stdlib Require Import Floats.SpecFloat.
From stdpp Require Import base tactics option list.

Local Open Scope Z_scope.
Local Open Scope nat_scope.

(** ** Data model *)

(** Handles: a node of the radix tree, a CUDA stream, a CUDA event. *)
Abbreviation NodeRef := nat.
Abbreviation Stream := nat.
Abbreviation Event := nat.

(** The stream every torch program starts on; model computation is issued
    there. *)
Definition default_stream : Stream := 0.

(** [TreeNode] of radix_cache.py, restricted to the attributes the three
    modules read or write.  Slot indices are integers; [None] is Python's
    [None].  [id] is called [node_id] here. *)
Record TreeNode := mkTreeNode {
  node_id : Z;
  children : list (Z * NodeRef);
  value : option (list Z);
  host_value : option (list Z);
  is_prefetching : bool;
  pending_gpu_indices : option (list Z);
  prefetch_event : option Event;
  last_access_time : spec_float;
  creation_time : spec_float;
  hit_count : Z;
  priority : Z;
  workflow_eviction_value : option Z
}.

Definition set_value (v : option (list Z)) (n : TreeNode) : TreeNode :=
  mkTreeNode (node_id n) (children n) v (host_value n) (is_prefetching n)
    (pending_gpu_indices n) (prefetch_event n) (last_access_time n)
    (creation_time n) (hit_count n) (priority n) (workflow_eviction_value n).

Definition set_is_prefetching (b : bool) (n : TreeNode) : TreeNode :=
  mkTreeNode (node_id n) (children n) (value n) (host_value n) b
    (pending_gpu_indices n) (prefetch_event n) (last_access_time n)
    (creation_time n) (hit_count n) (priority n) (workflow_eviction_value n).

Definition set_pending_gpu_indices (p : option (list Z)) (n : TreeNode) : TreeNode :=
  mkTreeNode (node_id n) (children n) (value n) (host_value n) (is_prefetching n)
    p (prefetch_event n) (last_access_time n)
    (creation_time n) (hit_count n) (priority n) (workflow_eviction_value n).

Definition set_prefetch_event (e : option Event) (n : TreeNode) : TreeNode :=
  mkTreeNode (node_id n) (children n) (value n) (host_value n) (is_prefetching n)
    (pending_gpu_indices n) e (last_access_time n)
    (creation_time n) (hit_count n) (priority n) (workflow_eviction_value n).

(** Calls that leave the prefetch manager, in program order. *)
Inductive Call :=
| call_alloc_gpu (needed_slots : nat) (result : option (list Z))
| call_copy_from_cpu (lane : Stream) (src_indices dst_indices : list Z)
| call_event_record (e : Event) (lane : Stream)
| call_print (hot_node : Z).

(** The memory manager is an interface ([self.mem]): an allocator with its
    own state.  [alloc_gpu] answers [None] when the device is full;
    [copy_from_cpu] enqueues the copy on the lane it is called under. *)
Class MemManager (Mem : Type) := {
  alloc_gpu : nat -> Mem -> option (list Z) * Mem;
  copy_from_cpu : Stream -> list Z -> list Z -> Mem -> Mem
}.

(** An allocator that hands out as many slots as were asked for. *)
Class MemManagerLaws (Mem : Type) `{MemManager Mem} := {
  alloc_gpu_length : forall n m l m',
    alloc_gpu n m = (Some l, m') -> length l = n
}.

Inductive Exn :=
| AttributeError
| ReferenceError
| RecursionError
| ZeroDivisionError
| OverflowError.

Inductive Res (A : Type) :=
| Ok (a : A)
| Raise (e : Exn).
Arguments Ok {A} a.
Arguments Raise {A} e.

Section World.
Context {Mem : Type}.

(** Everything a method can see or change. *)
Record World := mkWorld {
  nodes : list TreeNode;
  mem : Mem;
  current_stream : Stream;
  next_stream : nat;
  next_event : nat;
  completed : list Event;
  trace : list Call
}.

Definition set_nodes (ns : list TreeNode) (w : World) : World :=
  mkWorld ns (mem w) (current_stream w) (next_stream w) (next_event w)
    (completed w) (trace w).

Definition set_mem (m : Mem) (w : World) : World :=
  mkWorld (nodes w) m (current_stream w) (next_stream w) (next_event w)
    (completed w) (trace w).

Definition set_current_stream (s : Stream) (w : World) : World :=
  mkWorld (nodes w) (mem w) s (next_stream w) (next_event w)
    (completed w) (trace w).

Definition set_next_stream (k : nat) (w : World) : World :=
  mkWorld (nodes w) (mem w) (current_stream w) k (next_event w)
    (completed w) (trace w).

Definition set_next_event (k : nat) (w : World) : World :=
  mkWorld (nodes w) (mem w) (current_stream w) (next_stream w) k
    (completed w) (trace w).

Definition set_completed (d : list Event) (w : World) : World :=
  mkWorld (nodes w) (mem w) (current_stream w) (next_stream w) (next_event w)
    d (trace w).

Definition log (c : Call) (w : World) : World :=
  mkWorld (nodes w) (mem w) (current_stream w) (next_stream w) (next_event w)
    (completed w) (trace w ++ [c]).

(** ** The monad: state passing, an exception keeps the state reached. *)
Definition M (A : Type) : Type := World -> Res A * World.

Definition ret {A} (a : A) : M A := fun w => (Ok a, w).

Definition bind {A B} (c : M A) (k : A -> M B) : M B :=
  fun w => match c w with
           | (Ok a, w') => k a w'
           | (Raise e, w') => (Raise e, w')
           end.

Definition raise {A} (e : Exn) : M A := fun w => (Raise e, w).

End World.
Arguments World Mem : clear implicits.
Arguments M Mem A : clear implicits.

Notation "'let!' x ':=' c 'in' k" := (bind c (fun x => k))
  (at level 10, x name, c at level 100, k at level 200).
Notation "c '>>' k" := (bind c (fun _ => k))
  (at level 90, right associativity).

Section Prefetch.
Context {Mem : Type} `{MM : MemManager Mem}.
Local Abbreviation M := (M Mem).
Local Abbreviation World := (World Mem).

(** [node.attr] *)
Definition getattr {A} (node : NodeRef) (attr : TreeNode -> A) : M A :=
  fun w => match nodes w !! node with
           | Some n => (Ok (attr n), w)
           | None => (Raise ReferenceError, w)
           end.

(** [node.attr = v], [upd] being the setter of [attr] applied to [v]. *)
Definition setattr (node : NodeRef) (upd : TreeNode -> TreeNode) : M unit :=
  fun w => match nodes w !! node with
           | Some n => (Ok tt, set_nodes (<[node := upd n]> (nodes w)) w)
           | None => (Raise ReferenceError, w)
           end.

(** [for x in l: body] *)
Fixpoint for_each {A} (l : list A) (body : A -> M unit) : M unit :=
  match l with
  | [] => ret tt
  | x :: l' => body x >> for_each l' body
  end.

(** [[x for x in l if cond(x)]] *)
Fixpoint comprehension {A} (l : list A) (cond : A -> M bool) : M (list A) :=
  match l with
  | [] => ret []
  | x :: l' =>
      let! b := cond x in
      let! r := comprehension l' cond in
      ret (if b then x :: r else r)
  end.

(** Modelled from the spec: [RadixCache.get_all_nodes] is not part of the
    sources; the tree owns its nodes, so it yields every node of the arena
    once. *)
Definition get_all_nodes : M (list NodeRef) :=
  fun w => (Ok (seq 0 (length (nodes w))), w).

(** [torch.cuda.Stream()] : a stream no one else holds. *)
Definition new_stream : M Stream :=
  fun w => (Ok (next_stream w), set_next_stream (S (next_stream w)) w).

(** [torch.cuda.Event()] *)
Definition new_event : M Event :=
  fun w => (Ok (next_event w), set_next_event (S (next_event w)) w).

(** [event.record(stream)] *)
Definition event_record (e : Event) (s : Stream) : M unit :=
  fun w => (Ok tt, log (call_event_record e s) w).

(** [event.query()] : has the work captured by the event finished? *)
Definition event_query (e : Event) : M bool :=
  fun w => (Ok (existsb (Nat.eqb e) (completed w)), w).

(** [with torch.cuda.stream(s): body] : the current stream is [s] inside and
    is restored on the way out, also when [body] raises. *)
Definition with_stream {A} (s : Stream) (body : M A) : M A :=
  fun w =>
    let prev := current_stream w in
    let (r, w') := body (set_current_stream s w) in
    (r, set_current_stream prev w').

(** [self.mem.alloc_gpu(n)] *)
Definition mem_alloc_gpu (n : nat) : M (option (list Z)) :=
  fun w =>
    let (r, m') := alloc_gpu n (mem w) in
    (Ok r, log (call_alloc_gpu n r) (set_mem m' w)).

(** [self.mem.copy_from_cpu(src_indices=src, dst_indices=dst)] *)
Definition mem_copy_from_cpu (src dst : list Z) : M unit :=
  fun w =>
    let lane := current_stream w in
    (Ok tt, log (call_copy_from_cpu lane src dst)
              (set_mem (copy_from_cpu lane src dst (mem w)) w)).

Definition print_hot (i : Z) : M unit :=
  fun w => (Ok tt, log (call_print i) w).

(** ** PrefetchManager *)

Record PrefetchManager := mkPrefetchManager {
  stream : Stream
}.

(** [PrefetchManager.__init__] : [self.mem] and [self.tree] are the world's
    allocator and arena, [self.stream] is a new stream. *)
Definition PrefetchManager_init : M PrefetchManager :=
  let! s := new_stream in
  ret (mkPrefetchManager s).

Definition tick (self : PrefetchManager) : M unit :=
  let! all_nodes := get_all_nodes in
  let! loading_nodes :=
    comprehension all_nodes (fun n => getattr n is_prefetching) in
  for_each loading_nodes (fun node =>
    let! ev := getattr node prefetch_event in
    match ev with
    | None => raise AttributeError
    | Some e =>
        let! done := event_query e in
        if done then
          setattr node (set_is_prefetching false) >>
          (let! pending := getattr node pending_gpu_indices in
           setattr node (set_value pending)) >>
          setattr node (set_pending_gpu_indices None) >>
          (let! i := getattr node node_id in print_hot i)
        else ret tt
    end).

Definition request_prefetch (self : PrefetchManager) (node : NodeRef) : M unit :=
  let! v := getattr node value in
  if bool_decide (v <> None) then ret tt else
  let! hv := getattr node host_value in
  match hv with
  | None => ret tt
  | Some host =>
      let! busy := getattr node is_prefetching in
      if busy then ret tt else
      let needed_slots := length host in
      let! gpu_indices := mem_alloc_gpu needed_slots in
      match gpu_indices with
      | None => ret tt
      | Some gpu =>
          setattr node (set_is_prefetching true) >>
          setattr node (set_pending_gpu_indices (Some gpu)) >>
          with_stream (stream self) (mem_copy_from_cpu host gpu) >>
          (let! event := new_event in
           event_record event (stream self) >>
           setattr node (set_prefetch_event (Some event)))
      end
  end.

(** The device finishes the work captured by an event. *)
Definition device_completes (e : Event) (w : World) : World :=
  set_completed (e :: completed w) w.

End Prefetch.

(** ** Eviction strategies (evict_policy.py) *)

(** The subclasses of the abstract [EvictionStrategy]; none has fields. *)
Inductive EvictionStrategy :=
| LRUStrategy
| LFUStrategy
| FIFOStrategy
| MRUStrategy
| FILOStrategy
| PriorityStrategy
| StepsToExecutionStrategy
| LMUStrategy.

(** What [get_priority] returns: a float, an int, or a pair (int, float).
    Times are IEEE doubles; they are only negated and compared, which is
    exact, so they are kept as [spec_float]. *)
Inductive Key :=
| KFloat (x : spec_float)
| KInt (z : Z)
| KTuple (a : Z) (b : spec_float).

(** Python's [<] on two keys of one strategy; a pair is compared on the
    first component where the two differ.  [None] is a [TypeError]
    (a pair against a number) or a mix no single strategy produces. *)
Definition key_lt (k1 k2 : Key) : option bool :=
  match k1, k2 with
  | KFloat x, KFloat y => Some (SFltb x y)
  | KInt a, KInt b => Some (a <? b)%Z
  | KTuple a x, KTuple b y => Some (if (a =? b)%Z then SFltb x y else (a <? b)%Z)
  | _, _ => None
  end.

(** Python's [<=], same conventions.  Two pairs that agree on the first
    component and both hold a NaN compare as equal when the two NaN are one
    object and as unordered when they are not; a key does not record this,
    and the answer is [None] there as well. *)
Definition key_le (k1 k2 : Key) : option bool :=
  match k1, k2 with
  | KFloat x, KFloat y => Some (SFleb x y)
  | KInt a, KInt b => Some (a <=? b)%Z
  | KTuple a x, KTuple b y =>
      if (a =? b)%Z then
        match x, y with
        | S754_nan, S754_nan => None
        | _, _ => Some (SFleb x y)
        end
      else Some (a <? b)%Z
  | _, _ => None
  end.

(** [len(node.value)], nothing for a node that is not on the device. *)
Definition resident_tokens (n : TreeNode) : Z :=
  match value n with
  | Some v => Z.of_nat (length v)
  | None => 0%Z
  end.

(** The tokens held on the device by a node and everything below it;
    [None] when a child handle dangles or the depth budget runs out. *)
Fixpoint subtree_tokens (fuel : nat) (ns : list TreeNode) (node : NodeRef)
  : option Z :=
  match fuel with
  | O => None
  | S fuel' =>
      match ns !! node with
      | None => None
      | Some n =>
          fold_right
            (fun c acc =>
               match acc, subtree_tokens fuel' ns (snd c) with
               | Some a, Some b => Some (a + b)%Z
               | _, _ => None
               end)
            (Some (resident_tokens n)) (children n)
      end
  end.

Section Evict.
Context {Mem : Type}.
Local Abbreviation M := (M Mem).

(** Modelled from the spec: [TreeNode.get_agent_leaf_memory] is not part of
    the sources; the spec gives the least-memory-usage key as the aggregate
    resident footprint of the node's dependent subtree.  A tree of [k] nodes
    is no deeper than [k]; a cyclic arena exhausts the recursion depth. *)
Definition get_agent_leaf_memory (node : NodeRef) : M Z :=
  fun w =>
    match nodes w !! node with
    | None => (Raise ReferenceError, w)
    | Some _ =>
        match subtree_tokens (S (length (nodes w))) (nodes w) node with
        | Some z => (Ok z, w)
        | None => (Raise RecursionError, w)
        end
    end.

Definition get_priority (self : EvictionStrategy) (node : NodeRef) : M Key :=
  match self with
  | LRUStrategy =>
      let! t := getattr node last_access_time in ret (KFloat t)
  | LFUStrategy =>
      let! h := getattr node hit_count in
      let! t := getattr node last_access_time in
      ret (KTuple h t)
  | FIFOStrategy =>
      let! t := getattr node creation_time in ret (KFloat t)
  | MRUStrategy =>
      let! t := getattr node last_access_time in ret (KFloat (SFopp t))
  | FILOStrategy =>
      let! t := getattr node creation_time in ret (KFloat (SFopp t))
  | PriorityStrategy =>
      let! p := getattr node priority in
      let! t := getattr node last_access_time in
      ret (KTuple p t)
  | StepsToExecutionStrategy =>
      let! v := getattr node workflow_eviction_value in
      match v with
      | None => ret (KInt (-9999999))
      | Some steps => ret (KInt (- steps))
      end
  | LMUStrategy =>
      let! m := get_agent_leaf_memory node in ret (KInt m)
  end.

End Evict.

(** The scalar metadata the strategies consume. *)
Definition same_metadata (n1 n2 : TreeNode) : Prop :=
  last_access_time n1 = last_access_time n2 /\
  creation_time n1 = creation_time n2 /\
  hit_count n1 = hit_count n2 /\
  priority n1 = priority n2 /\
  workflow_eviction_value n1 = workflow_eviction_value n2.

(** What the footprint of a subtree reads of a node. *)
Definition footprint_view (n : TreeNode) : list (Z * NodeRef) * option (list Z) :=
  (children n, value n).

(** ** Cache time series (cache_timeseries.py) *)

(** Values that end up in the dictionaries of the API response; a float
    is an IEEE double. *)
#[local] Unset Elimination Schemes.
Inductive PyVal :=
| PyInt (z : Z)
| PyFloat (x : spec_float)
| PyStrDict (d : list (string * PyVal))
| PyIntDict (d : list (Z * Z)).
#[local] Set Elimination Schemes.

Definition Dict := list (string * PyVal).

(** [d[k]] *)
Fixpoint dict_get (k : string) (d : Dict) : option PyVal :=
  match d with
  | [] => None
  | (k', v) :: d' => if String.eqb k k' then Some v else dict_get k d'
  end.

(** [d[k] = v] : an existing key keeps its place, a new one goes last. *)
Fixpoint dict_set (k : string) (v : PyVal) (d : Dict) : Dict :=
  match d with
  | [] => [(k, v)]
  | (k', v') :: d' =>
      if String.eqb k k' then (k', v) :: d' else (k', v') :: dict_set k v d'
  end.

(** The int [a] as the quotient [a / 1] before any rounding. *)
Definition float_of_int (a : Z) : spec_float :=
  match a with
  | Z0 => S754_zero false
  | Zpos p => S754_finite false p 0
  | Zneg p => S754_finite true p 0
  end.

(** [a / b] on ints: the quotient rounded once to the nearest double, ties
    to even; a quotient beyond the largest double is an [OverflowError]. *)
Definition py_truediv (a b : Z) : Res spec_float :=
  if (b =? 0)%Z then Raise ZeroDivisionError
  else
    match SFdiv 53 1024 (float_of_int a) (float_of_int b) with
    | S754_infinity _ => Raise OverflowError
    | q => Ok q
    end.

(** A float attribute of an object (a time stamp, an average) is kept as a
    rational; the double the object holds is the nearest one. *)
Definition double_of_Q (q : Q) : spec_float :=
  SFdiv 53 1024 (float_of_int (Qnum q)) (float_of_int (Zpos (Qden q))).

(** [round(x, 2)] : the exact value of the double is rounded to the nearest
    hundredth, ties to the even one, and the double nearest to that decimal
    is returned; infinities and NaN are returned as they are. *)
Definition py_round2 (x : spec_float) : spec_float :=
  match x with
  | S754_finite s m e =>
      let n := (Zpos m * 100 * 2 ^ Z.max e 0)%Z in
      let d := (2 ^ Z.max (- e) 0)%Z in
      let q := (n / d)%Z in
      let r := (n mod d)%Z in
      let q' :=
        match (2 * r ?= d)%Z with
        | Lt => q
        | Gt => (q + 1)%Z
        | Eq => if Z.even q then q else (q + 1)%Z
        end in
      match q' with
      | Z0 => S754_zero s
      | _ => SFdiv 53 1024 (float_of_int (if s then - q' else q')%Z)
               (float_of_int 100)
      end
  | _ => x
  end.

Module NodeStats.

Record t := mk {
  node_count : Z;
  leaf_count : Z;
  avg_node_tokens : Q;
  max_node_tokens : Z;
  min_node_tokens : Z;
  size_histogram : list (string * Z);
  depth_distribution : list (Z * Z)
}.

Definition to_dict (self : t) : Dict :=
  [ ("node_count", PyInt (node_count self));
    ("leaf_count", PyInt (leaf_count self));
    ("avg_node_tokens",
       PyFloat (py_round2 (double_of_Q (avg_node_tokens self))));
    ("max_node_tokens", PyInt (max_node_tokens self));
    ("min_node_tokens", PyInt (min_node_tokens self));
    ("size_histogram",
       PyStrDict (map (fun kv => (fst kv, PyInt (snd kv))) (size_histogram self)));
    ("depth_distribution", PyIntDict (depth_distribution self)) ]%string.

End NodeStats.

Module CacheSnapshot.

Record t := mk {
  timestamp : Q;
  total_tokens : Z;
  evictable_tokens : Z;
  protected_tokens : Z;
  pool_size : Z;
  hit_tokens : Z;
  requested_tokens : Z;
  request_count : Z;
  node_stats : option NodeStats.t
}.

Definition to_dict (self : t) : Res Dict :=
  match (if (pool_size self >? 0)%Z
         then py_truediv (total_tokens self) (pool_size self)
         else Ok (S754_zero false)) with
  | Raise e => Raise e
  | Ok utilization =>
      let miss_tokens := (requested_tokens self - hit_tokens self)%Z in
      let result :=
        [ ("timestamp", PyFloat (double_of_Q (timestamp self)));
          ("total_tokens", PyInt (total_tokens self));
          ("evictable_tokens", PyInt (evictable_tokens self));
          ("protected_tokens", PyInt (protected_tokens self));
          ("utilization", PyFloat utilization);
          ("hit_tokens", PyInt (hit_tokens self));
          ("miss_tokens", PyInt miss_tokens);
          ("request_count", PyInt (request_count self)) ]%string in
      match node_stats self with
      | Some ns =>
          Ok (dict_set "node_stats" (PyStrDict (NodeStats.to_dict ns)) result)
      | None => Ok result
      end
  end.

End CacheSnapshot.

Module CacheTimeSeriesTracker.

Record t := mk {
  max_history_seconds : Q;
  snapshot_interval : Q;
  _snapshots : list CacheSnapshot.t;
  _total_requests : Z;
  _hit_tokens : Z;
  _requested_tokens : Z;
  _last_snapshot_time : Q
}.

(** The dataclass constructor followed by [__post_init__]. *)
Definition post_init (max_history_seconds snapshot_interval : Q) : t :=
  mk max_history_seconds snapshot_interval [] 0 0 0 0.

Definition record_match (matched_tokens requested_tokens : Z) (self : t) : t :=
  mk (max_history_seconds self) (snapshot_interval self) (_snapshots self)
     (_total_requests self + 1)
     (_hit_tokens self + matched_tokens)
     (_requested_tokens self + requested_tokens)
     (_last_snapshot_time self).

Definition get_stats_dict (self : t) : Res Dict :=
  let latest := last (_snapshots self) in
  let total_tokens := from_option CacheSnapshot.total_tokens 0%Z latest in
  let evictable_tokens := from_option CacheSnapshot.evictable_tokens 0%Z latest in
  let protected_tokens := from_option CacheSnapshot.protected_tokens 0%Z latest in
  let pool_size := from_option CacheSnapshot.pool_size 0%Z latest in
  match (if (pool_size >? 0)%Z then py_truediv total_tokens pool_size
         else Ok (S754_zero false)) with
  | Raise e => Raise e
  | Ok utilization =>
      let result :=
        [ ("total_tokens", PyInt total_tokens);
          ("evictable_tokens", PyInt evictable_tokens);
          ("protected_tokens", PyInt protected_tokens);
          ("utilization", PyFloat utilization);
          ("total_hit_tokens", PyInt (_hit_tokens self));
          ("total_miss_tokens",
             PyInt (_requested_tokens self - _hit_tokens self));
          ("total_requests", PyInt (_total_requests self)) ]%string in
      match latest ≫= CacheSnapshot.node_stats with
      | Some ns =>
          Ok (dict_set "node_stats" (PyStrDict (NodeStats.to_dict ns)) result)
      | None => Ok result
      end
  end.


End CacheTimeSeriesTracker.

(** ** States the prefetch manager can be in *)

Section Reach.
Context {Mem : Type} `{MM : MemManager Mem}.
Local Abbreviation M := (M Mem).
Local Abbreviation World := (World Mem).

(** The state a computation leaves behind. *)
Definition exec {A} (c : M A) (w : World) : World := snd (c w).

(** Before the manager exists: computation runs on the default stream and
    no node has a transfer outstanding. *)
Definition initial (w : World) : Prop :=
  current_stream w = default_stream /\
  default_stream < next_stream w /\
  Forall (fun n => is_prefetching n = false) (nodes w).

(** The scheduler builds the manager once, then calls [request_prefetch]
    and [tick] in any order while the device completes transfers. *)
Inductive reachable : PrefetchManager -> World -> Prop :=
| reach_init w0 self w :
    initial w0 -> PrefetchManager_init w0 = (Ok self, w) -> reachable self w
| reach_request self w node :
    reachable self w -> reachable self (exec (request_prefetch self node) w)
| reach_tick self w :
    reachable self w -> reachable self (exec (tick self) w)
| reach_device self w e :
    reachable self w -> reachable self (device_completes e w).

(** The three assignments of [request_prefetch] on one node. *)
Definition start_prefetch (gpu : list Z) (e : Event) (n : TreeNode) : TreeNode :=
  set_prefetch_event (Some e)
    (set_pending_gpu_indices (Some gpu) (set_is_prefetching true n)).

(** The three assignments of [tick] on one node. *)
Definition commit (n : TreeNode) : TreeNode :=
  set_pending_gpu_indices None
    (set_value (pending_gpu_indices n) (set_is_prefetching false n)).

(** What one [tick] does to one node, given the finished events. *)
Definition tick_node (done : list Event) (n : TreeNode) : TreeNode :=
  if is_prefetching n then
    match prefetch_event n with
    | Some e => if existsb (Nat.eqb e) done then commit n else n
    | None => n
    end
  else n.

(** Every node with a transfer outstanding carries its completion handle. *)
Definition handles_present (ns : list TreeNode) : Prop :=
  Forall (fun n => is_prefetching n = true -> prefetch_event n <> None) ns.

(** The node is on the host only: [HOST_RESIDENT] of the spec. *)
Definition host_resident (n : TreeNode) : Prop :=
  value n = None /\ host_value n <> None /\ is_prefetching n = false.

(** The nodes [tick] puts into [loading_nodes]. *)
Definition is_loading (ns : list TreeNode) (i : NodeRef) : bool :=
  match ns !! i with Some n => is_prefetching n | None => false end.

(** The body of the loop of [tick]. *)
Definition tick_body (node : NodeRef) : M unit :=
  let! ev := getattr node prefetch_event in
  match ev with
  | None => raise AttributeError
  | Some e =>
      let! done := event_query e in
      if done then
        setattr node (set_is_prefetching false) >>
        (let! pending := getattr node pending_gpu_indices in
         setattr node (set_value pending)) >>
        setattr node (set_pending_gpu_indices None) >>
        (let! i := getattr node node_id in print_hot i)
      else ret tt
  end.

(** Allocator, streams and events are the same in both worlds. *)
Definition same_device (w w' : World) : Prop :=
  mem w' = mem w /\ current_stream w' = current_stream w /\
  next_stream w' = next_stream w /\ next_event w' = next_event w /\
  completed w' = completed w.

(** What holds of a node with a transfer outstanding; [R] relates the
    reserved device slots to the host slots they were reserved for. *)
Definition node_inv (R : list Z -> list Z -> Prop) (n : TreeNode) : Prop :=
  is_prefetching n = true ->
  value n = None /\ prefetch_event n <> None /\
  exists gpu host, pending_gpu_indices n = Some gpu /\
                   host_value n = Some host /\ R gpu host.

(** The invariant of the reachable states. *)
Definition inv (R : list Z -> list Z -> Prop) (self : PrefetchManager)
  (w : World) : Prop :=
  current_stream w = default_stream /\
  stream self <> default_stream /\
  Forall (node_inv R) (nodes w).

End Reach.

(** ** A concrete memory manager: slots are handed out in order until the
    pool is used up. *)
Record BumpPool := mkBumpPool {
  next_free : nat;
  capacity : nat
}.

Definition bump_alloc (n : nat) (p : BumpPool) : option (list Z) * BumpPool :=
  if next_free p + n <=? capacity p
  then (Some (map Z.of_nat (seq (next_free p) n)),
        mkBumpPool (next_free p + n) (capacity p))
  else (None, p).

#[export] Instance BumpPool_MemManager : MemManager BumpPool := {
  alloc_gpu := bump_alloc;
  copy_from_cpu := fun _ _ _ p => p
}.

(** ** Concrete scenarios *)

(** A node as [TreeNode.__init__] leaves it, with the given values. *)
Definition fresh_node (i : Z) (v hv : option (list Z)) : TreeNode :=
  mkTreeNode i [] v hv false None None (S754_zero false) (S754_zero false)
    0%Z 0%Z None.

Definition world0 (ns : list TreeNode) (p : BumpPool) : World BumpPool :=
  mkWorld ns p default_stream 1 0 [] [].

(** The doubles 1.0 and 2.0. *)
Definition double_1 : spec_float := S754_finite false 4503599627370496 (-52).
Definition double_2 : spec_float := S754_finite false 4503599627370496 (-51).

(** A node with the given eviction metadata and nothing else. *)
Definition meta_node (access created : spec_float) (hits prio : Z)
  (steps : option Z) : TreeNode :=
  mkTreeNode 0 [] None None false None None access created hits prio steps.

(** A parent with one child; only the child's [value] is left open. *)
Definition family (child_value : option (list Z)) : list TreeNode :=
  [ mkTreeNode 0 [(1%Z, 1)] None None false None None
      (S754_zero false) (S754_zero false) 0%Z 0%Z None;
    fresh_node 1 child_value None ].

(** The scenario of the spec: A with last access 1 and 5 hits, B with last
    access 2 and 1 hit. *)
Definition scenario_lfu : World BumpPool :=
  world0 [ meta_node double_1 (S754_zero false) 5 0 None;
           meta_node double_2 (S754_zero false) 1 0 None ] (mkBumpPool 0 0).

(** A node without a prediction and one predicted to run in [steps] steps. *)
Definition scenario_steps (steps : Z) : World BumpPool :=
  world0 [ meta_node double_1 double_1 0 0 None;
           meta_node double_1 double_1 0 0 (Some steps) ] (mkBumpPool 0 0).

(** A snapshot of a pool of forty slots holding ten tokens, and a tracker
    whose latest snapshot it is. *)
Definition demo_snapshot : CacheSnapshot.t :=
  CacheSnapshot.mk 0 10 4 6 40 3 5 1 None.

Definition demo_tracker : CacheTimeSeriesTracker.t :=
  CacheTimeSeriesTracker.mk 300 5
    [CacheSnapshot.mk 0 0 0 0 0 0 0 0 None; demo_snapshot] 1 3 5 0.

(** Three nodes: one on the host with slots 5 and 6, one on the device, one
    on the host with no slot at all. *)
Definition demo_nodes : list TreeNode :=
  [ fresh_node 7 None (Some [5; 6]%Z);
    fresh_node 8 (Some [1; 2; 3]%Z) None;
    fresh_node 9 None (Some []) ].

Definition demo_self : PrefetchManager := mkPrefetchManager 1.

(** The world right after the manager was built, the pool holding the
    slots from 20 up to [cap]. *)
Definition demo_world (cap : nat) : World BumpPool :=
  exec PrefetchManager_init (world0 demo_nodes (mkBumpPool 20 cap)).

(** ** What one [tick] does to the world *)

Section TickResult.
Context {Mem : Type}.
Local Abbreviation World := (World Mem).

(** Does [tick] commit this node, given the finished events? *)
Definition commits (done : list Event) (n : TreeNode) : bool :=
  is_prefetching n &&
  match prefetch_event n with
  | Some e => existsb (Nat.eqb e) done
  | None => false
  end.

(** The lines [tick] prints, one for each node it commits. *)
Definition tick_prints (done : list Event) (ns : list TreeNode) : list Call :=
  flat_map (fun n => if commits done n then [call_print (node_id n)] else []) ns.

(** The lines printed for the node behind a handle. *)
Definition prints_at (ns : list TreeNode) (done : list Event) (i : NodeRef)
  : list Call :=
  match ns !! i with
  | Some n => if commits done n then [call_print (node_id n)] else []
  | None => []
  end.

(** The world after a [tick] that meets no node without a handle. *)
Definition tick_result (w : World) : World :=
  mkWorld (map (tick_node (completed w)) (nodes w)) (mem w)
    (current_stream w) (next_stream w) (next_event w) (completed w)
    (trace w ++ tick_prints (completed w) (nodes w)).

(** The handles of the transfers in flight are below the event counter and
    pairwise distinct. *)
Definition events_fresh (w : World) : Prop :=
  (forall i n e, nodes w !! i = Some n -> is_prefetching n = true ->
     prefetch_event n = Some e -> e < next_event w) /\
  (forall i j ni nj e, i <> j ->
     nodes w !! i = Some ni -> nodes w !! j = Some nj ->
     is_prefetching ni = true -> is_prefetching nj = true ->
     prefetch_event ni = Some e -> prefetch_event nj <> Some e).

End TickResult.

(** ** The order of eviction *)

(** Does [node_a] come before [node_b] under a strategy?  The caller of
    [get_priority] evicts the node with the smaller key first; [None] when
    a key is not obtained or the two keys cannot be compared. *)
Definition evicted_before {Mem : Type} (s : EvictionStrategy)
  (node_a node_b : NodeRef) (w : World Mem) : option bool :=
  match fst (get_priority s node_a w), fst (get_priority s node_b w) with
  | Ok ka, Ok kb => key_lt ka kb
  | _, _ => None
  end.

(** ** Node statistics, snapshots and history (cache_timeseries.py) *)

(** What the tracker reads of the cache.  [RadixCache] is not in the
    sources: [token_to_kv_pool_allocator] is [None] or the [size] of the
    allocator, and [total_size], [evictable_size], [protected_size] are the
    values the methods of these names return. *)
Record RadixCache := mkRadixCache {
  disable : bool;
  root_node : NodeRef;
  token_to_kv_pool_allocator : option Z;
  total_size : Z;
  evictable_size : Z;
  protected_size : Z
}.

(** [d.get(k, default)] and [d[k] = v] on a dict with int keys. *)
Fixpoint int_dict_get (k : Z) (d : list (Z * Z)) (default : Z) : Z :=
  match d with
  | [] => default
  | (k', v) :: d' => if (k =? k')%Z then v else int_dict_get k d' default
  end.

Fixpoint int_dict_set (k v : Z) (d : list (Z * Z)) : list (Z * Z) :=
  match d with
  | [] => [(k, v)]
  | (k', v') :: d' =>
      if (k =? k')%Z then (k', v) :: d' else (k', v') :: int_dict_set k v d'
  end.

(** The three accumulators of the traversal. *)
Record Walk := mkWalk {
  node_sizes : list Z;
  depth_counts : list (Z * Z);
  leaf_count : Z
}.

(** One turn of the loop on the node popped, before its children are
    pushed.  [node != cache.root_node] compares the two objects, here their
    handles. *)
Definition visit (root node : NodeRef) (depth : Z) (n : TreeNode)
  (acc : Walk) : Walk :=
  let acc1 :=
    match value n with
    | Some v =>
        if (Z.of_nat (length v) >? 0)%Z then
          mkWalk (node_sizes acc ++ [Z.of_nat (length v)])
            (int_dict_set depth
               (int_dict_get depth (depth_counts acc) 0 + 1)%Z
               (depth_counts acc))
            (leaf_count acc)
        else acc
    | None => acc
    end in
  if (length (children n) =? 0) && negb (node =? root) then
    mkWalk (node_sizes acc1) (depth_counts acc1) (leaf_count acc1 + 1)%Z
  else acc1.

(** [while stack: ...].  The stack is kept top first, so appending the
    children one by one puts them reversed in front.  [None] when the loop
    has not ended after [fuel] turns (or a child handle dangles, which
    Python objects cannot). *)
Fixpoint collect_loop (fuel : nat) (ns : list TreeNode) (root : NodeRef)
  (stack : list (NodeRef * Z)) (acc : Walk) : option Walk :=
  match stack with
  | [] => Some acc
  | (node, depth) :: rest =>
      match fuel with
      | O => None
      | S fuel' =>
          match ns !! node with
          | None => None
          | Some n =>
              collect_loop fuel' ns root
                (rev (map (fun c => (snd c, (depth + 1)%Z)) (children n)) ++ rest)
                (visit root node depth n acc)
          end
      end
  end.

(** [histogram[bucket] += 1] for the bucket of [size]. *)
Definition histogram_add (size : Z) (h : list (string * Z)) : list (string * Z) :=
  let bucket :=
    (if (size <? 100)%Z then "0-100"
     else if (size <? 500)%Z then "100-500"
     else if (size <? 1000)%Z then "500-1000"
     else "1000+")%string in
  map (fun kv => if String.eqb (fst kv) bucket then (fst kv, (snd kv + 1)%Z)
                 else kv) h.

Definition empty_histogram : list (string * Z) :=
  [("0-100"%string, 0%Z); ("100-500"%string, 0%Z);
   ("500-1000"%string, 0%Z); ("1000+"%string, 0%Z)].

(** [sum(l)] *)
Definition py_sum (l : list Z) : Z := fold_left Z.add l 0%Z.

(** [total / count] for the sum and the number of a list of lengths.  A
    length is below [sys.maxsize], so the quotient is within the doubles and
    the only error left is the division by zero; the average is kept as the
    exact quotient, the double Python holds being the nearest one. *)
Definition py_mean (total count : Z) : Res Q :=
  if (count =? 0)%Z then Raise ZeroDivisionError
  else Ok (inject_Z total / inject_Z count)%Q.

(** The statistics built once the traversal is over. *)
Definition build_stats (acc : Walk) : Res NodeStats.t :=
  match node_sizes acc with
  | [] => Ok (NodeStats.mk 0 0 0 0 0 empty_histogram [])
  | first :: others =>
      let histogram :=
        fold_left (fun h size => histogram_add size h) (node_sizes acc)
          empty_histogram in
      match py_mean (py_sum (node_sizes acc))
                    (Z.of_nat (length (node_sizes acc))) with
      | Raise e => Raise e
      | Ok avg =>
          Ok (NodeStats.mk
                (Z.of_nat (length (node_sizes acc)))
                (leaf_count acc)
                avg
                (fold_left Z.max others first)
                (fold_left Z.min others first)
                histogram
                (depth_counts acc))
      end
  end.

Definition _collect_node_stats (fuel : nat) (cache : RadixCache)
  (ns : list TreeNode) : option (Res (option NodeStats.t)) :=
  if disable cache then Some (Ok None)
  else
    match collect_loop fuel ns (root_node cache) [(root_node cache, 0%Z)]
            (mkWalk [] [] 0) with
    | None => None
    | Some acc =>
        match build_stats acc with
        | Ok stats => Some (Ok (Some stats))
        | Raise e => Some (Raise e)
        end
    end.

(** [x < y] on floats. *)
Definition py_lt (x y : Q) : bool := negb (Qle_bool y x).

(** [while self._snapshots and self._snapshots[0].timestamp < cutoff:
    self._snapshots.popleft()] *)
Fixpoint prune (cutoff : Q) (snaps : list CacheSnapshot.t)
  : list CacheSnapshot.t :=
  match snaps with
  | [] => []
  | s :: rest =>
      if py_lt (CacheSnapshot.timestamp s) cutoff then prune cutoff rest
      else snaps
  end.

(** [take_snapshot], [now] being what [time.time()] returns.  The outer
    [None] is a traversal of the tree that does not end within [fuel]. *)
Definition take_snapshot (fuel : nat) (now : Q) (cache : RadixCache)
  (ns : list TreeNode) (self : CacheTimeSeriesTracker.t)
  : option (Res (option CacheSnapshot.t * CacheTimeSeriesTracker.t)) :=
  if py_lt (now - CacheTimeSeriesTracker._last_snapshot_time self)
           (CacheTimeSeriesTracker.snapshot_interval self)
  then Some (Ok (None, self))
  else
    let pool_size :=
      match token_to_kv_pool_allocator cache with
      | Some size => size
      | None => 0%Z
      end in
    match _collect_node_stats fuel cache ns with
    | None => None
    | Some (Raise e) =>
        Some (Raise e)
    | Some (Ok node_stats) =>
        let snapshot :=
          CacheSnapshot.mk now (total_size cache) (evictable_size cache)
            (protected_size cache) pool_size
            (CacheTimeSeriesTracker._hit_tokens self)
            (CacheTimeSeriesTracker._requested_tokens self)
            (CacheTimeSeriesTracker._total_requests self)
            node_stats in
        let cutoff := (now - CacheTimeSeriesTracker.max_history_seconds self)%Q in
        Some (Ok (Some snapshot,
                  CacheTimeSeriesTracker.mk
                    (CacheTimeSeriesTracker.max_history_seconds self)
                    (CacheTimeSeriesTracker.snapshot_interval self)
                    (prune cutoff
                       (CacheTimeSeriesTracker._snapshots self ++ [snapshot]))
                    (CacheTimeSeriesTracker._total_requests self)
                    (CacheTimeSeriesTracker._hit_tokens self)
                    (CacheTimeSeriesTracker._requested_tokens self)
                    now))
    end.




(** Children are in the arena and lie strictly below their parent for the
    rank [rank]: the arena holds no cycle. *)
Definition ranked (rank : NodeRef -> nat) (ns : list TreeNode) : Prop :=
  forall i n, ns !! i = Some n ->
    Forall (fun c => snd c < length ns /\ rank (snd c) < rank i) (children n).

(** A bound on the turns of the loop started on a node of rank [r] in a
    tree where no node has more than [b] children. *)
Fixpoint visits (b r : nat) : nat :=
  match r with
  | O => 1
  | S r' => 1 + b * visits b r'
  end.

Definition max_children (ns : list TreeNode) : nat :=
  fold_right (fun n m => Nat.max (length (children n)) m) 0 ns.

(** The turns still to come for a stack. *)
Definition stack_work (b : nat) (rank : NodeRef -> nat)
  (stack : list (NodeRef * Z)) : nat :=
  list_sum (map (fun p => visits b (rank (fst p))) stack).

(** What the accumulators satisfy all along the traversal. *)
Definition walk_ok (acc : Walk) : Prop :=
  Forall (fun size => (0 < size)%Z) (node_sizes acc) /\
  py_sum (map snd (depth_counts acc)) = Z.of_nat (length (node_sizes acc)) /\
  (0 <= leaf_count acc)%Z.

(** ** More concrete scenarios *)

(** Both host-resident nodes of [demo_nodes] requested, in this order. *)
Definition demo_two_loading : World BumpPool :=
  exec (request_prefetch demo_self 2)
    (exec (request_prefetch demo_self 0) (demo_world 100)).

(** A root without tokens, a child with three tokens that has a child on
    the host only, and a leaf with 150 tokens. *)
Definition demo_tree : list TreeNode :=
  [ mkTreeNode 0 [(1%Z, 1); (2%Z, 2)] (Some []) None false None None
      (S754_zero false) (S754_zero false) 0%Z 0%Z None;
    mkTreeNode 1 [(3%Z, 3)] (Some [1; 2; 3]%Z) None false None None
      (S754_zero false) (S754_zero false) 0%Z 0%Z None;
    fresh_node 2 (Some (repeat 7%Z 150)) None;
    fresh_node 3 None (Some [4]%Z) ].

Definition demo_cache : RadixCache :=
  mkRadixCache false 0 (Some 1000%Z) 153 100 53.

(** Handles grow from parent to child in [demo_tree]. *)
Definition demo_rank (i : NodeRef) : nat := 4 - i.

(** * Properties *)

(** ** The prefetch manager *)

Section PrefetchFacts.
Context {Mem : Type} `{MM : MemManager Mem}.
Local Abbreviation M := (M Mem).
Local Abbreviation World := (World Mem).

Lemma getattr_Some {A} (attr : TreeNode -> A) node (w : World) n :
  nodes w !! node = Some n -> getattr node attr w = (Ok (attr n), w).
Proof. intros H. unfold getattr. now rewrite H. Qed.

Lemma setattr_Some upd node (w : World) n :
  nodes w !! node = Some n ->
  setattr node upd w = (Ok tt, set_nodes (<[node := upd n]> (nodes w)) w).
Proof. intros H. unfold setattr. now rewrite H. Qed.

Lemma lookup_after_set node (ns : list TreeNode) n n' :
  ns !! node = Some n -> <[node := n']> ns !! node = Some n'.
Proof.
  intros H. apply list_lookup_insert_eq. eapply lookup_lt_Some; eauto.
Qed.

Lemma request_prefetch_guard self node (w : World) n :
  nodes w !! node = Some n ->
  value n <> None \/ host_value n = None \/ is_prefetching n = true ->
  request_prefetch self node w = (Ok tt, w).
Proof.
  intros Hn Hg. unfold request_prefetch, bind.
  rewrite (getattr_Some value _ _ _ Hn).
  destruct (value n) as [v|] eqn:Hv.
  - rewrite bool_decide_eq_true_2 by discriminate. reflexivity.
  - rewrite bool_decide_eq_false_2 by (intros H; now apply H).
    rewrite (getattr_Some host_value _ _ _ Hn).
    destruct (host_value n) as [host|] eqn:Hh; [|reflexivity].
    rewrite (getattr_Some is_prefetching _ _ _ Hn).
    destruct (is_prefetching n) eqn:Hp; [reflexivity|].
    destruct Hg as [Hg|[Hg|Hg]]; congruence.
Qed.

Lemma request_prefetch_unfold self node (w : World) n host :
  nodes w !! node = Some n ->
  value n = None -> host_value n = Some host -> is_prefetching n = false ->
  request_prefetch self node w =
  match alloc_gpu (length host) (mem w) with
  | (None, m') => (Ok tt, log (call_alloc_gpu (length host) None) (set_mem m' w))
  | (Some gpu, m') =>
      (Ok tt,
       mkWorld (<[node := start_prefetch gpu (next_event w) n]> (nodes w))
         (copy_from_cpu (stream self) host gpu m')
         (current_stream w) (next_stream w) (S (next_event w)) (completed w)
         (trace w ++ [call_alloc_gpu (length host) (Some gpu);
                      call_copy_from_cpu (stream self) host gpu;
                      call_event_record (next_event w) (stream self)]))
  end.
Proof.
  intros Hn Hv Hh Hp. unfold request_prefetch, bind.
  rewrite (getattr_Some value _ _ _ Hn), Hv.
  rewrite bool_decide_eq_false_2 by (intros H; now apply H).
  rewrite (getattr_Some host_value _ _ _ Hn), Hh.
  rewrite (getattr_Some is_prefetching _ _ _ Hn), Hp.
  unfold mem_alloc_gpu.
  destruct (alloc_gpu (length host) (mem w)) as [[gpu|] m']; [|reflexivity].
  erewrite setattr_Some by (simpl; exact Hn).
  erewrite setattr_Some by (simpl; eapply lookup_after_set; exact Hn).
  unfold with_stream, mem_copy_from_cpu, new_event, event_record. simpl.
  erewrite setattr_Some by (simpl; eapply lookup_after_set; eapply lookup_after_set; exact Hn).
  unfold set_nodes, log; simpl.
  rewrite !list_insert_insert_eq. rewrite <- !app_assoc. reflexivity.
Qed.

Lemma is_loading_Some (ns : list TreeNode) i n :
  ns !! i = Some n -> is_loading ns i = is_prefetching n.
Proof. intros H. unfold is_loading. now rewrite H. Qed.

Lemma comprehension_loading (l : list NodeRef) (w : World) :
  Forall (fun i => i < length (nodes w)) l ->
  comprehension l (fun n => getattr n is_prefetching) w =
  (Ok (List.filter (is_loading (nodes w)) l), w).
Proof.
  induction 1 as [|i l Hi _ IH]; [reflexivity|].
  apply lookup_lt_is_Some_2 in Hi as [n Hn].
  cbn [comprehension List.filter]. unfold bind.
  rewrite (getattr_Some _ _ _ _ Hn), IH.
  rewrite (is_loading_Some _ _ _ Hn). reflexivity.
Qed.

Lemma tick_body_loading node (w : World) n :
  nodes w !! node = Some n ->
  is_prefetching n = true -> prefetch_event n <> None ->
  exists w', tick_body node w = (Ok tt, w') /\
    nodes w' = <[node := tick_node (completed w) n]> (nodes w) /\
    mem w' = mem w /\ current_stream w' = current_stream w /\
    next_stream w' = next_stream w /\ next_event w' = next_event w /\
    completed w' = completed w.
Proof.
  intros Hn Hp He. destruct (prefetch_event n) as [e|] eqn:Hev; [|congruence].
  unfold tick_body, bind. rewrite (getattr_Some _ _ _ _ Hn), Hev.
  unfold event_query, tick_node. rewrite Hp, Hev.
  destruct (existsb (Nat.eqb e) (completed w)).
  - erewrite setattr_Some by exact Hn.
    erewrite getattr_Some by (simpl; eapply lookup_after_set; exact Hn).
    erewrite setattr_Some by (simpl; eapply lookup_after_set; exact Hn).
    erewrite setattr_Some
      by (simpl; eapply lookup_after_set; eapply lookup_after_set; exact Hn).
    erewrite getattr_Some
      by (simpl; do 3 eapply lookup_after_set; exact Hn).
    eexists; split; [reflexivity|]. simpl.
    rewrite !list_insert_insert_eq. auto 10.
  - eexists; split; [reflexivity|]. rewrite list_insert_id by exact Hn. auto 10.
Qed.

Lemma tick_loop (l : list NodeRef) : forall (w : World) (done : list Event),
  NoDup l ->
  completed w = done ->
  (forall i, i ∈ l -> exists n, nodes w !! i = Some n /\
      is_prefetching n = true /\ prefetch_event n <> None) ->
  exists w', for_each l tick_body w = (Ok tt, w') /\
    same_device w w' /\
    length (nodes w') = length (nodes w) /\
    forall j, nodes w' !! j =
      if bool_decide (j ∈ l) then tick_node done <$> nodes w !! j
      else nodes w !! j.
Proof.
  induction l as [|i l IH]; intros w done Hnd Hdone Hl.
  - exists w. repeat split; try reflexivity.
  - apply NoDup_cons in Hnd as [Hi Hnd].
    destruct (Hl i) as (n & Hn & Hp & He); [left|].
    destruct (tick_body_loading i w n Hn Hp He) as (w1 & Hrun & Hns & Hsame).
    destruct (IH w1 done Hnd) as (w' & Hrun' & Hsame' & Hlen & Hlook).
    + destruct Hsame as (_ & _ & _ & _ & ->). exact Hdone.
    + intros j Hj. destruct (Hl j) as (m & Hm & Hpm & Hem); [now right|].
      exists m. rewrite Hns, list_lookup_insert_ne by (intros ->; contradiction).
      auto.
    + exists w'. cbn [for_each]. unfold bind. rewrite Hrun.
      split; [exact Hrun'|]. split; [|split].
      * unfold same_device in *. intuition congruence.
      * rewrite Hlen, Hns. apply length_insert.
      * intros j. rewrite Hlook, Hns.
        destruct (decide (j = i)) as [->|Hji].
        -- rewrite bool_decide_eq_false_2 by exact Hi.
           rewrite bool_decide_eq_true_2 by left.
           rewrite Hn. erewrite lookup_after_set by exact Hn. rewrite Hdone. reflexivity.
        -- rewrite list_lookup_insert_ne by congruence.
           destruct (decide (j ∈ l)) as [Hjl|Hjl].
           ++ rewrite !bool_decide_eq_true_2; [reflexivity| now right | exact Hjl].
           ++ rewrite !bool_decide_eq_false_2; [reflexivity| | exact Hjl].
              intros [?|?]%elem_of_cons; contradiction.
Qed.

Lemma tick_node_idle done n : is_prefetching n = false -> tick_node done n = n.
Proof. intros H. unfold tick_node. now rewrite H. Qed.

Lemma tick_spec self (w : World) :
  handles_present (nodes w) ->
  exists w', tick self w = (Ok tt, w') /\
    nodes w' = map (tick_node (completed w)) (nodes w) /\
    same_device w w'.
Proof.
  intros Hh.
  assert (Hrange : Forall (fun i => i < length (nodes w)) (seq 0 (length (nodes w)))).
  { apply Forall_forall. intros i Hi%elem_of_seq. lia. }
  destruct (tick_loop (List.filter (is_loading (nodes w)) (seq 0 (length (nodes w))))
              w (completed w)) as (w' & Hrun & Hsame & Hlen & Hlook).
  - apply NoDup_ListNoDup, List.NoDup_filter, List.seq_NoDup.
  - reflexivity.
  - intros i Hi%list_elem_of_In%filter_In. destruct Hi as [_ Hi].
    unfold is_loading in Hi. destruct (nodes w !! i) as [n|] eqn:Hn; [|discriminate].
    exists n. split; [reflexivity|]. split; [exact Hi|].
    exact (Forall_lookup_1 _ _ _ _ Hh Hn Hi).
  - exists w'. split; [|split; [|exact Hsame]].
    + unfold tick, bind, get_all_nodes.
      rewrite (comprehension_loading _ _ Hrange). exact Hrun.
    + apply list_eq. intros j. rewrite Hlook, list_lookup_fmap.
      destruct (bool_decide _) eqn:Hb; [reflexivity|].
      destruct (nodes w !! j) as [n|] eqn:Hn; [|reflexivity].
      simpl. rewrite tick_node_idle; [reflexivity|].
      apply bool_decide_eq_false_1 in Hb.
      destruct (is_prefetching n) eqn:Hp; [|reflexivity].
      exfalso. apply Hb. apply list_elem_of_In, filter_In. split.
      * apply in_seq. apply lookup_lt_Some in Hn. lia.
      * now rewrite (is_loading_Some _ _ _ Hn).
Qed.

Lemma request_prefetch_dangling self node (w : World) :
  nodes w !! node = None ->
  request_prefetch self node w = (Raise ReferenceError, w).
Proof.
  intros Hn. unfold request_prefetch, bind, getattr. now rewrite Hn.
Qed.

Lemma node_inv_start R gpu host e n :
  value n = None -> host_value n = Some host -> R gpu host ->
  node_inv R (start_prefetch gpu e n).
Proof.
  intros Hv Hh HR _. simpl. repeat split; [exact Hv|discriminate|].
  exists gpu, host. auto.
Qed.

Lemma node_inv_tick R done n : node_inv R n -> node_inv R (tick_node done n).
Proof.
  intros Hn. unfold tick_node.
  destruct (is_prefetching n) eqn:Hp; [|exact Hn].
  destruct (prefetch_event n) as [e|]; [|exact Hn].
  destruct (existsb (Nat.eqb e) done); [|exact Hn].
  intros H. discriminate H.
Qed.

Lemma node_inv_handles R ns : Forall (node_inv R) ns -> handles_present ns.
Proof.
  intros H. eapply Forall_impl; [exact H|].
  intros n Hn Hp. now destruct (Hn Hp) as (_ & He & _).
Qed.

Section Invariant.
Variable R : list Z -> list Z -> Prop.
Hypothesis alloc_R : forall k m gpu m' (host : list Z),
  alloc_gpu k m = (Some gpu, m') -> length host = k -> R gpu host.

Lemma inv_init w0 self (w : World) :
  initial w0 -> PrefetchManager_init w0 = (Ok self, w) -> inv R self w.
Proof.
  intros (Hc & Hs & Hn) Hi. injection Hi as <- <-.
  repeat split; simpl; [exact Hc|unfold default_stream in *; lia|].
  eapply Forall_impl; [exact Hn|]. intros n Hf Hp. congruence.
Qed.

Lemma inv_request_prefetch self node (w : World) :
  inv R self w -> inv R self (exec (request_prefetch self node) w).
Proof.
  intros (Hc & Hs & Hn). unfold exec.
  destruct (nodes w !! node) as [n|] eqn:Hlook.
  2:{ rewrite request_prefetch_dangling by exact Hlook. now repeat split. }
  destruct (value n) as [v|] eqn:Hv.
  { rewrite (request_prefetch_guard _ _ _ n) by (auto; left; congruence).
    now repeat split. }
  destruct (host_value n) as [host|] eqn:Hh.
  2:{ rewrite (request_prefetch_guard _ _ _ n) by auto. now repeat split. }
  destruct (is_prefetching n) eqn:Hp.
  { rewrite (request_prefetch_guard _ _ _ n) by auto. now repeat split. }
  rewrite (request_prefetch_unfold _ _ _ n host) by assumption.
  destruct (alloc_gpu (length host) (mem w)) as [[gpu|] m'] eqn:Ha.
  - repeat split; simpl; [exact Hc|exact Hs|].
    apply Forall_insert; [exact Hn|].
    apply (node_inv_start R gpu host); eauto.
  - now repeat split.
Qed.

Lemma inv_tick self (w : World) :
  inv R self w -> inv R self (exec (tick self) w).
Proof.
  intros (Hc & Hs & Hn). unfold exec.
  destruct (tick_spec self w) as (w' & -> & Hns & Hsame).
  { eapply node_inv_handles; eauto. }
  destruct Hsame as (_ & Hc' & _). simpl.
  repeat split; [congruence|exact Hs|].
  rewrite Hns. apply Forall_fmap. eapply Forall_impl; [exact Hn|].
  intros n. apply node_inv_tick.
Qed.

Lemma reachable_inv self (w : World) : reachable self w -> inv R self w.
Proof.
  induction 1 as [w0 self w Hi He|self w node _ IH|self w _ IH|self w e _ IH].
  - eapply inv_init; eauto.
  - now apply inv_request_prefetch.
  - now apply inv_tick.
  - exact IH.
Qed.

End Invariant.


(** C2.  On a reachable state [tick] returns; a node with a transfer
    outstanding whose event reports completion gets as [value] the indices
    that were pending, loses [pending_gpu_indices] and is no longer
    prefetching; one whose event is not signalled is left as it was. *)
Theorem tick_commits_completed self (w : World) node n e :
  reachable self w ->
  nodes w !! node = Some n ->
  is_prefetching n = true ->
  prefetch_event n = Some e ->
  exists w', tick self w = (Ok tt, w') /\
    (event_query e w = (Ok true, w) ->
       exists n', nodes w' !! node = Some n' /\
         value n' = pending_gpu_indices n /\
         pending_gpu_indices n' = None /\
         is_prefetching n' = false /\
         host_value n' = host_value n) /\
    (event_query e w = (Ok false, w) -> nodes w' !! node = Some n).
Proof.
  intros Hr Hn Hp He.
  apply (reachable_inv (fun _ _ => True)) in Hr; [|auto].
  destruct Hr as (_ & _ & Hall).
  destruct (tick_spec self w (node_inv_handles _ _ Hall)) as (w' & Hrun & Hns & _).
  exists w'. split; [exact Hrun|].
  assert (Hl : nodes w' !! node = Some (tick_node (completed w) n)).
  { rewrite Hns, list_lookup_fmap, Hn. reflexivity. }
  unfold tick_node in Hl. rewrite Hp, He in Hl. unfold event_query.
  split; intros Hq; injection Hq as Hq; rewrite Hq in Hl.
  - exists (commit n). repeat split. exact Hl.
  - exact Hl.
Qed.

(** C3.  When the allocator refuses the reservation for a node that is on
    the host only, [request_prefetch] returns and no node has changed; in
    particular [host_value], [value] and [is_prefetching] of the node are
    what they were. *)
Theorem request_prefetch_alloc_failure self (w : World) node n host m' :
  nodes w !! node = Some n ->
  host_resident n ->
  host_value n = Some host ->
  alloc_gpu (length host) (mem w) = (None, m') ->
  exists w', request_prefetch self node w = (Ok tt, w') /\
    nodes w' = nodes w /\
    exists n', nodes w' !! node = Some n' /\
      host_value n' = host_value n /\ value n' = value n /\
      is_prefetching n' = is_prefetching n.
Proof.
  intros Hn (Hv & _ & Hp) Hh Ha.
  rewrite (request_prefetch_unfold _ _ _ n host) by assumption.
  rewrite Ha. eexists; split; [reflexivity|]. split; [reflexivity|].
  exists n. simpl. auto.
Qed.

(** C4.  [request_prefetch] changes nothing in the world (no node, no
    allocator state, no call in the trace) when the node has a [value], or
    has no [host_value], or is prefetching already; so a second call right
    after one that started the transfer changes nothing. *)
Theorem request_prefetch_noop self (w : World) node n :
  nodes w !! node = Some n ->
  (value n <> None \/ host_value n = None \/ is_prefetching n = true ->
     request_prefetch self node w = (Ok tt, w)) /\
  (forall host gpu m',
     host_resident n -> host_value n = Some host ->
     alloc_gpu (length host) (mem w) = (Some gpu, m') ->
     let w1 := exec (request_prefetch self node) w in
     w1 <> w /\ request_prefetch self node w1 = (Ok tt, w1)).
Proof.
  intros Hn. split.
  - now apply request_prefetch_guard.
  - intros host gpu m' (Hv & _ & Hp) Hh Ha w1. subst w1. unfold exec.
    rewrite (request_prefetch_unfold _ _ _ n host) by assumption.
    rewrite Ha. cbn [snd]. split.
    + intros Heq. apply (f_equal next_event) in Heq. simpl in Heq. lia.
    + eapply request_prefetch_guard.
      * simpl. eapply lookup_after_set. exact Hn.
      * right; right. reflexivity.
Qed.

(** C5.  When the reservation for a node that is on the host only
    succeeds, [request_prefetch] asks the allocator once, for
    [len(host_value)] slots, marks the node as prefetching with the
    reserved indices pending, issues the copy of the host slots into them
    on the manager's own stream, which is not the stream the caller
    computes on, and leaves on the node an event recorded on that
    stream. *)
Theorem request_prefetch_starts_transfer self (w : World) node n host gpu m' :
  reachable self w ->
  nodes w !! node = Some n ->
  host_resident n ->
  host_value n = Some host ->
  alloc_gpu (length host) (mem w) = (Some gpu, m') ->
  exists w', request_prefetch self node w = (Ok tt, w') /\
    trace w' = trace w ++
      [call_alloc_gpu (length host) (Some gpu);
       call_copy_from_cpu (stream self) host gpu;
       call_event_record (next_event w) (stream self)] /\
    nodes w' = <[node := start_prefetch gpu (next_event w) n]> (nodes w) /\
    (exists n', nodes w' !! node = Some n' /\
       is_prefetching n' = true /\
       pending_gpu_indices n' = Some gpu /\
       prefetch_event n' = Some (next_event w) /\
       value n' = None /\ host_value n' = Some host) /\
    stream self <> current_stream w /\
    current_stream w' = current_stream w.
Proof.
  intros Hr Hn (Hv & _ & Hp) Hh Ha.
  apply (reachable_inv (fun _ _ => True)) in Hr; [|auto].
  destruct Hr as (Hc & Hs & _).
  rewrite (request_prefetch_unfold _ _ _ n host) by assumption.
  rewrite Ha. eexists; split; [reflexivity|]. simpl.
  repeat split; [|congruence].
  exists (start_prefetch gpu (next_event w) n).
  split; [eapply lookup_after_set; exact Hn|]. simpl. auto.
Qed.

End PrefetchFacts.

#[export] Instance BumpPool_MemManagerLaws : MemManagerLaws BumpPool.
Proof.
  constructor. intros n m l m'. simpl. unfold bump_alloc.
  destruct (_ <=? _); [|discriminate].
  intros [= <- _]. now rewrite length_map, length_seq.
Qed.

Lemma demo_reachable cap : reachable demo_self (demo_world cap).
Proof.
  apply (reach_init (world0 demo_nodes (mkBumpPool 20 cap))); [|reflexivity].
  repeat split; [unfold default_stream; simpl; lia|].
  repeat constructor.
Defined.



Lemma tick_commits_completed_witness :
  let w0 := exec (request_prefetch demo_self 0) (demo_world 100) in
  let w := device_completes 0 w0 in
  let n := start_prefetch [20; 21]%Z 0 (fresh_node 7 None (Some [5; 6]%Z)) in
  (reachable demo_self w /\ nodes w !! 0 = Some n /\
   is_prefetching n = true /\ prefetch_event n = Some 0) /\
  exists w', tick demo_self w = (Ok tt, w') /\
    (event_query 0 w = (Ok true, w) ->
       exists n', nodes w' !! 0 = Some n' /\
         value n' = pending_gpu_indices n /\
         pending_gpu_indices n' = None /\
         is_prefetching n' = false /\
         host_value n' = host_value n) /\
    (event_query 0 w = (Ok false, w) -> nodes w' !! 0 = Some n).
Proof.
  intros w0 w n.
  assert (Hr : reachable demo_self w)
    by apply reach_device, reach_request, demo_reachable.
  assert (Hn : nodes w !! 0 = Some n) by reflexivity.
  assert (Hp : is_prefetching n = true) by reflexivity.
  assert (He : prefetch_event n = Some 0) by reflexivity.
  exact (conj (conj Hr (conj Hn (conj Hp He)))
           (tick_commits_completed demo_self w 0 n 0 Hr Hn Hp He)).
Defined.

Lemma request_prefetch_alloc_failure_witness :
  let w := demo_world 21 in
  let n := fresh_node 7 None (Some [5; 6]%Z) in
  (nodes w !! 0 = Some n /\ host_resident n /\
   alloc_gpu 2 (mem w) = (None, mkBumpPool 20 21)) /\
  exists w', request_prefetch demo_self 0 w = (Ok tt, w') /\
    nodes w' = nodes w /\
    exists n', nodes w' !! 0 = Some n' /\
      host_value n' = host_value n /\ value n' = value n /\
      is_prefetching n' = is_prefetching n.
Proof.
  intros w n.
  assert (Hn : nodes w !! 0 = Some n) by reflexivity.
  assert (Hh : host_resident n) by (repeat split; discriminate).
  assert (Ha : alloc_gpu 2 (mem w) = (None, mkBumpPool 20 21)) by reflexivity.
  exact (conj (conj Hn (conj Hh Ha))
           (request_prefetch_alloc_failure demo_self w 0 n [5; 6]%Z _
              Hn Hh eq_refl Ha)).
Defined.

Lemma request_prefetch_noop_witness :
  let w := demo_world 100 in
  request_prefetch demo_self 1 w = (Ok tt, w) /\
  (let w1 := exec (request_prefetch demo_self 0) w in
   w1 <> w /\ request_prefetch demo_self 0 w1 = (Ok tt, w1)).
Proof.
  intros w. split.
  - apply (proj1 (request_prefetch_noop demo_self w 1
                      (fresh_node 8 (Some [1; 2; 3]%Z) None) eq_refl)).
    left. discriminate.
  - apply (proj2 (request_prefetch_noop demo_self w 0
                      (fresh_node 7 None (Some [5; 6]%Z)) eq_refl)
             [5; 6]%Z [20; 21]%Z (mkBumpPool 22 100)).
    + repeat split; discriminate.
    + reflexivity.
    + reflexivity.
Defined.

Lemma request_prefetch_starts_transfer_witness :
  let w := demo_world 100 in
  let n := fresh_node 7 None (Some [5; 6]%Z) in
  (reachable demo_self w /\ nodes w !! 0 = Some n /\ host_resident n /\
   alloc_gpu 2 (mem w) = (Some [20; 21]%Z, mkBumpPool 22 100)) /\
  exists w', request_prefetch demo_self 0 w = (Ok tt, w') /\
    trace w' = trace w ++
      [call_alloc_gpu 2 (Some [20; 21]%Z);
       call_copy_from_cpu (stream demo_self) [5; 6]%Z [20; 21]%Z;
       call_event_record (next_event w) (stream demo_self)] /\
    nodes w' = <[0 := start_prefetch [20; 21]%Z (next_event w) n]> (nodes w) /\
    (exists n', nodes w' !! 0 = Some n' /\
       is_prefetching n' = true /\
       pending_gpu_indices n' = Some [20; 21]%Z /\
       prefetch_event n' = Some (next_event w) /\
       value n' = None /\ host_value n' = Some [5; 6]%Z) /\
    stream demo_self <> current_stream w /\
    current_stream w' = current_stream w.
Proof.
  intros w n.
  assert (Hr : reachable demo_self w) by apply demo_reachable.
  assert (Hn : nodes w !! 0 = Some n) by reflexivity.
  assert (Hh : host_resident n) by (repeat split; discriminate).
  assert (Ha : alloc_gpu 2 (mem w) = (Some [20; 21]%Z, mkBumpPool 22 100))
    by reflexivity.
  exact (conj (conj Hr (conj Hn (conj Hh Ha)))
           (request_prefetch_starts_transfer demo_self w 0 n [5; 6]%Z
              [20; 21]%Z _ Hr Hn Hh eq_refl Ha)).
Defined.

(** ** The eviction strategies *)

(** Run the attribute reads of a computation, given the nodes they hit. *)
Ltac run_reads :=
  unfold get_priority, bind, getattr, ret;
  repeat (progress (cbn beta iota zeta) ||
          match goal with
          | H : nodes ?w !! ?i = Some _ |- context [nodes ?w !! ?i] => rewrite H
          end).

Section EvictFacts.
Context {Mem : Type}.
Local Abbreviation World := (World Mem).

Lemma get_priority_reads_only s node (w : World) :
  snd (get_priority s node w) = w.
Proof.
  destruct (nodes w !! node) as [n|] eqn:Hn;
    destruct s; unfold get_priority, get_agent_leaf_memory, bind, getattr, ret;
    rewrite ?Hn; try reflexivity.
  - destruct (workflow_eviction_value n); reflexivity.
  - destruct (subtree_tokens _ _ _); reflexivity.
Qed.

Lemma subtree_tokens_view fuel : forall (ns1 ns2 : list TreeNode) node,
  footprint_view <$> ns1 = footprint_view <$> ns2 ->
  subtree_tokens fuel ns1 node = subtree_tokens fuel ns2 node.
Proof.
  induction fuel as [|fuel IH]; intros ns1 ns2 node Hv; [reflexivity|].
  assert (Hl : footprint_view <$> ns1 !! node = footprint_view <$> ns2 !! node)
    by (rewrite <- !list_lookup_fmap; now rewrite Hv).
  cbn [subtree_tokens].
  destruct (ns1 !! node) as [n1|], (ns2 !! node) as [n2|]; try discriminate;
    [|reflexivity].
  injection Hl as Hc Hval. unfold resident_tokens. rewrite Hc, Hval. clear Hc.
  induction (children n2) as [|c cs IHc]; [reflexivity|].
  cbn [fold_right]. rewrite IHc, (IH ns1 ns2 (snd c) Hv). reflexivity.
Qed.

(** C6.  The key of each of the six strategies of the table, on a node of
    the tree: LRU the last access time, LFU the pair of hit count and last
    access time, FIFO the creation time, MRU and FILO the negated last
    access and creation time, Priority the pair of priority and last access
    time; the call returns and leaves the world as it was. *)
Theorem get_priority_table node (w : World) n :
  nodes w !! node = Some n ->
  get_priority LRUStrategy node w = (Ok (KFloat (last_access_time n)), w) /\
  get_priority LFUStrategy node w =
    (Ok (KTuple (hit_count n) (last_access_time n)), w) /\
  get_priority FIFOStrategy node w = (Ok (KFloat (creation_time n)), w) /\
  get_priority MRUStrategy node w =
    (Ok (KFloat (SFopp (last_access_time n))), w) /\
  get_priority FILOStrategy node w =
    (Ok (KFloat (SFopp (creation_time n))), w) /\
  get_priority PriorityStrategy node w =
    (Ok (KTuple (priority n) (last_access_time n)), w).
Proof.
  intros Hn. run_reads. repeat split.
Qed.

(** C7.  Under LFU the node with strictly fewer hits has the strictly
    smaller key, whatever the two last access times are. *)
Theorem lfu_fewer_hits_first node_a node_b (w : World) a b :
  nodes w !! node_a = Some a ->
  nodes w !! node_b = Some b ->
  (hit_count b < hit_count a)%Z ->
  exists ka kb,
    get_priority LFUStrategy node_a w = (Ok ka, w) /\
    get_priority LFUStrategy node_b w = (Ok kb, w) /\
    key_lt kb ka = Some true /\ key_lt ka kb = Some false.
Proof.
  intros Ha Hb Hlt. run_reads.
  do 2 eexists. split; [reflexivity|]. split; [reflexivity|]. simpl.
  destruct (Z.eqb_spec (hit_count b) (hit_count a)); [lia|].
  destruct (Z.eqb_spec (hit_count a) (hit_count b)); [lia|].
  split; f_equal; lia.
Qed.

(** C8, as amended.  Under the steps-to-execution strategy a node without
    a prediction gets the key -9999999, which is at most the key of every
    node whose prediction is present and not above 9999999. *)
Theorem steps_absent_evicted_first node_a node_p (w : World) a p steps :
  nodes w !! node_a = Some a ->
  nodes w !! node_p = Some p ->
  workflow_eviction_value a = None ->
  workflow_eviction_value p = Some steps ->
  (steps <= 9999999)%Z ->
  get_priority StepsToExecutionStrategy node_a w = (Ok (KInt (-9999999)), w) /\
  get_priority StepsToExecutionStrategy node_p w = (Ok (KInt (- steps)), w) /\
  key_le (KInt (-9999999)) (KInt (- steps)) = Some true.
Proof.
  intros Ha Hp Hna Hsp Hle. run_reads.
  rewrite Hna, Hsp. repeat split. simpl. f_equal. lia.
Qed.

(** C9, as amended.  No strategy changes the world.  For every strategy
    but LMU the key is the same on two nodes with the same metadata.  The
    key of LMU is the same in two worlds that agree on the children and the
    [value] of every node. *)
Theorem get_priority_pure :
  (forall s node (w : World), snd (get_priority s node w) = w) /\
  (forall s node1 node2 (w1 w2 : World) n1 n2,
     s <> LMUStrategy ->
     nodes w1 !! node1 = Some n1 -> nodes w2 !! node2 = Some n2 ->
     same_metadata n1 n2 ->
     exists k, fst (get_priority s node1 w1) = Ok k /\
               fst (get_priority s node2 w2) = Ok k) /\
  (forall node (w1 w2 : World),
     footprint_view <$> nodes w1 = footprint_view <$> nodes w2 ->
     fst (get_priority LMUStrategy node w1) =
     fst (get_priority LMUStrategy node w2)).
Proof.
  split; [exact get_priority_reads_only|]. split.
  - intros s node1 node2 w1 w2 n1 n2 Hs H1 H2 (Ha & Hc & Hh & Hp & Hw).
    destruct s; try congruence; run_reads;
      rewrite ?Ha, ?Hc, ?Hh, ?Hp, ?Hw; try (eexists; split; reflexivity).
    destruct (workflow_eviction_value n2); eexists; split; reflexivity.
  - intros node w1 w2 Hv.
    assert (Hl : footprint_view <$> nodes w1 !! node =
                 footprint_view <$> nodes w2 !! node)
      by (rewrite <- !list_lookup_fmap; now rewrite Hv).
    assert (Hlen : length (nodes w1) = length (nodes w2))
      by (rewrite <- (length_fmap footprint_view (nodes w1)), Hv;
          apply length_fmap).
    unfold get_priority, get_agent_leaf_memory, bind, ret.
    rewrite Hlen, (subtree_tokens_view _ _ _ node Hv).
    destruct (nodes w1 !! node), (nodes w2 !! node); try discriminate;
      [|reflexivity].
    destruct (subtree_tokens _ _ _); reflexivity.
Qed.

End EvictFacts.

Lemma get_priority_table_witness :
  let w := scenario_lfu in
  let n := meta_node double_1 (S754_zero false) 5 0 None in
  nodes w !! 0 = Some n /\
  get_priority LRUStrategy 0 w = (Ok (KFloat double_1), w) /\
  get_priority LFUStrategy 0 w = (Ok (KTuple 5 double_1), w) /\
  get_priority FIFOStrategy 0 w = (Ok (KFloat (S754_zero false)), w) /\
  get_priority MRUStrategy 0 w = (Ok (KFloat (SFopp double_1)), w) /\
  get_priority FILOStrategy 0 w = (Ok (KFloat (S754_zero true)), w) /\
  get_priority PriorityStrategy 0 w = (Ok (KTuple 0 double_1), w).
Proof.
  intros w n.
  exact (conj eq_refl (get_priority_table 0 w n eq_refl)).
Defined.

Lemma lfu_fewer_hits_first_witness :
  let w := scenario_lfu in
  SFltb double_1 double_2 = true /\
  exists ka kb,
    get_priority LFUStrategy 0 w = (Ok ka, w) /\
    get_priority LFUStrategy 1 w = (Ok kb, w) /\
    key_lt kb ka = Some true /\ key_lt ka kb = Some false.
Proof.
  intros w. split; [reflexivity|].
  apply (lfu_fewer_hits_first 0 1 w
           (meta_node double_1 (S754_zero false) 5 0 None)
           (meta_node double_2 (S754_zero false) 1 0 None));
    [reflexivity|reflexivity|simpl; lia].
Defined.

Lemma steps_absent_evicted_first_witness :
  let w := scenario_steps 3 in
  get_priority StepsToExecutionStrategy 0 w = (Ok (KInt (-9999999)), w) /\
  get_priority StepsToExecutionStrategy 1 w = (Ok (KInt (-3)), w) /\
  key_le (KInt (-9999999)) (KInt (-3)) = Some true.
Proof.
  intros w.
  apply (steps_absent_evicted_first 0 1 w
           (meta_node double_1 double_1 0 0 None)
           (meta_node double_1 double_1 0 0 (Some 3%Z)) 3%Z);
    [reflexivity|reflexivity|reflexivity|reflexivity|lia].
Defined.

(** C8, as stated, fails: a node predicted to run in ten million steps has
    the key -10000000, below the key -9999999 of the node without a
    prediction, and is evicted before it. *)
Lemma steps_sentinel_overtaken :
  let w := scenario_steps 10000000 in
  get_priority StepsToExecutionStrategy 0 w = (Ok (KInt (-9999999)), w) /\
  get_priority StepsToExecutionStrategy 1 w = (Ok (KInt (-10000000)), w) /\
  key_le (KInt (-9999999)) (KInt (-10000000)) = Some false /\
  key_lt (KInt (-10000000)) (KInt (-9999999)) = Some true.
Proof. intros w. repeat split. Qed.

Lemma get_priority_pure_witness :
  let w1 := world0 (family (Some [1; 2; 3]%Z)) (mkBumpPool 0 0) in
  let w2 := world0 (family None) (mkBumpPool 0 0) in
  let w3 := world0 (family None) (mkBumpPool 5 9) in
  snd (get_priority LMUStrategy 0 w1) = w1 /\
  (exists k, fst (get_priority LFUStrategy 0 w1) = Ok k /\
             fst (get_priority LFUStrategy 1 w2) = Ok k) /\
  fst (get_priority LMUStrategy 0 w2) = fst (get_priority LMUStrategy 0 w3).
Proof.
  intros w1 w2 w3.
  destruct (@get_priority_pure BumpPool) as (Hpure & Hmeta & Hlmu).
  split; [apply Hpure|]. split.
  - eapply (Hmeta LFUStrategy 0 1 w1 w2);
      [discriminate|reflexivity|reflexivity|].
    repeat split.
  - apply Hlmu. reflexivity.
Defined.

(** C9, as stated, fails for LMU: the same node, with the same fields, has
    the key 3 when its child holds three device slots and the key 0 when
    the child holds none. *)
Lemma lmu_key_not_from_metadata :
  let w1 := world0 (family (Some [1; 2; 3]%Z)) (mkBumpPool 0 0) in
  let w2 := world0 (family None) (mkBumpPool 0 0) in
  (exists n, nodes w1 !! 0 = Some n /\ nodes w2 !! 0 = Some n /\
             same_metadata n n) /\
  fst (get_priority LMUStrategy 0 w1) = Ok (KInt 3) /\
  fst (get_priority LMUStrategy 0 w2) = Ok (KInt 0) /\
  fst (get_priority LMUStrategy 0 w1) <> fst (get_priority LMUStrategy 0 w2).
Proof.
  intros w1 w2. split.
  - eexists. split; [reflexivity|]. split; [reflexivity|]. repeat split.
  - split; [reflexivity|]. split; [reflexivity|]. discriminate.
Qed.

(** ** The metrics *)

(** [round(1.075, 2)] is 1.07: the double nearest to 43/40 lies below the
    tie, so the hundredths are 107 and not 108. *)
Example py_round2_below_tie :
  py_round2 (double_of_Q (43 # 40)) = double_of_Q (107 # 100).
Proof. vm_compute. reflexivity. Qed.

Lemma py_truediv_cases a b :
  b <> 0%Z ->
  (exists u, py_truediv a b = Ok u) \/ py_truediv a b = Raise OverflowError.
Proof.
  intros Hb. unfold py_truediv.
  destruct (Z.eqb_spec b 0) as [H0|_]; [contradiction|].
  destruct (SFdiv 53 1024 _ _); eauto.
Qed.

Lemma to_dict_returns (s : CacheSnapshot.t) u :
  ((CacheSnapshot.pool_size s > 0)%Z /\
   py_truediv (CacheSnapshot.total_tokens s) (CacheSnapshot.pool_size s) = Ok u) \/
  ((CacheSnapshot.pool_size s <= 0)%Z /\ u = S754_zero false) ->
  exists d, CacheSnapshot.to_dict s = Ok d /\
    dict_get "utilization" d = Some (PyFloat u) /\
    dict_get "miss_tokens" d =
      Some (PyInt (CacheSnapshot.requested_tokens s - CacheSnapshot.hit_tokens s)) /\
    dict_get "timestamp" d =
      Some (PyFloat (double_of_Q (CacheSnapshot.timestamp s))) /\
    dict_get "total_tokens" d = Some (PyInt (CacheSnapshot.total_tokens s)).
Proof.
  intros [(Hpos & Hu)|(Hle & ->)]; unfold CacheSnapshot.to_dict.
  - destruct (Z.gtb_spec (CacheSnapshot.pool_size s) 0) as [_|Hle]; [|lia].
    rewrite Hu. destruct (CacheSnapshot.node_stats s); eexists; repeat split.
  - destruct (Z.gtb_spec (CacheSnapshot.pool_size s) 0) as [Hpos|_]; [lia|].
    destruct (CacheSnapshot.node_stats s); eexists; repeat split.
Qed.

Lemma to_dict_overflows (s : CacheSnapshot.t) :
  (CacheSnapshot.pool_size s > 0)%Z ->
  py_truediv (CacheSnapshot.total_tokens s) (CacheSnapshot.pool_size s) =
    Raise OverflowError ->
  CacheSnapshot.to_dict s = Raise OverflowError.
Proof.
  intros Hpos Hu. unfold CacheSnapshot.to_dict.
  destruct (Z.gtb_spec (CacheSnapshot.pool_size s) 0) as [_|Hle]; [|lia].
  now rewrite Hu.
Qed.

Lemma get_stats_dict_returns (t : CacheTimeSeriesTracker.t) total pool u :
  total = from_option CacheSnapshot.total_tokens 0%Z
            (last (CacheTimeSeriesTracker._snapshots t)) ->
  pool = from_option CacheSnapshot.pool_size 0%Z
           (last (CacheTimeSeriesTracker._snapshots t)) ->
  ((pool > 0)%Z /\ py_truediv total pool = Ok u) \/
  ((pool <= 0)%Z /\ u = S754_zero false) ->
  exists d, CacheTimeSeriesTracker.get_stats_dict t = Ok d /\
    dict_get "utilization" d = Some (PyFloat u) /\
    dict_get "total_miss_tokens" d =
      Some (PyInt (CacheTimeSeriesTracker._requested_tokens t -
                   CacheTimeSeriesTracker._hit_tokens t)) /\
    dict_get "total_tokens" d = Some (PyInt total) /\
    dict_get "evictable_tokens" d =
      Some (PyInt (from_option CacheSnapshot.evictable_tokens 0%Z
                     (last (CacheTimeSeriesTracker._snapshots t)))) /\
    dict_get "protected_tokens" d =
      Some (PyInt (from_option CacheSnapshot.protected_tokens 0%Z
                     (last (CacheTimeSeriesTracker._snapshots t)))) /\
    dict_get "total_requests" d =
      Some (PyInt (CacheTimeSeriesTracker._total_requests t)) /\
    dict_get "node_stats" d =
      option_map (fun st => PyStrDict (NodeStats.to_dict st))
        (last (CacheTimeSeriesTracker._snapshots t) ≫= CacheSnapshot.node_stats).
Proof.
  intros -> -> Hdiv. unfold CacheTimeSeriesTracker.get_stats_dict.
  destruct Hdiv as [(Hpos & Hu)|(Hle & ->)].
  - destruct (Z.gtb_spec (from_option CacheSnapshot.pool_size 0%Z
                            (last (CacheTimeSeriesTracker._snapshots t))) 0)
      as [_|Hle]; [|lia].
    rewrite Hu.
    destruct (last (CacheTimeSeriesTracker._snapshots t) ≫= CacheSnapshot.node_stats);
      eexists; repeat split.
  - destruct (Z.gtb_spec (from_option CacheSnapshot.pool_size 0%Z
                            (last (CacheTimeSeriesTracker._snapshots t))) 0)
      as [Hpos|_]; [lia|].
    destruct (last (CacheTimeSeriesTracker._snapshots t) ≫= CacheSnapshot.node_stats);
      eexists; repeat split.
Qed.

Lemma get_stats_dict_overflows (t : CacheTimeSeriesTracker.t) latest :
  last (CacheTimeSeriesTracker._snapshots t) = Some latest ->
  (CacheSnapshot.pool_size latest > 0)%Z ->
  py_truediv (CacheSnapshot.total_tokens latest) (CacheSnapshot.pool_size latest) =
    Raise OverflowError ->
  CacheTimeSeriesTracker.get_stats_dict t = Raise OverflowError.
Proof.
  intros Hl Hpos Hu. unfold CacheTimeSeriesTracker.get_stats_dict.
  rewrite Hl. cbn [from_option].
  destruct (Z.gtb_spec (CacheSnapshot.pool_size latest) 0) as [_|Hle]; [|lia].
  now rewrite Hu.
Qed.

(** C10, as amended.  [to_dict] and [get_stats_dict] never raise
    [ZeroDivisionError].  When the pool size is positive the utilization is
    what Python's [total_tokens / pool_size] evaluates to, the quotient
    rounded to the nearest double, and both raise [OverflowError] when that
    quotient is beyond the doubles; when the pool size is zero, and in
    [get_stats_dict] when there is no snapshot, the utilization is 0.0.
    The miss tokens are the requested tokens minus the hit tokens. *)
Theorem utilization_guarded (s : CacheSnapshot.t) (t : CacheTimeSeriesTracker.t) :
  CacheSnapshot.to_dict s <> Raise ZeroDivisionError /\
  CacheTimeSeriesTracker.get_stats_dict t <> Raise ZeroDivisionError /\
  ((CacheSnapshot.pool_size s > 0)%Z ->
     (forall u,
        py_truediv (CacheSnapshot.total_tokens s) (CacheSnapshot.pool_size s) = Ok u ->
        exists d, CacheSnapshot.to_dict s = Ok d /\
          dict_get "utilization" d = Some (PyFloat u) /\
          dict_get "miss_tokens" d =
            Some (PyInt (CacheSnapshot.requested_tokens s -
                         CacheSnapshot.hit_tokens s))) /\
     (py_truediv (CacheSnapshot.total_tokens s) (CacheSnapshot.pool_size s) =
        Raise OverflowError ->
      CacheSnapshot.to_dict s = Raise OverflowError)) /\
  (CacheSnapshot.pool_size s = 0%Z ->
     exists d, CacheSnapshot.to_dict s = Ok d /\
       dict_get "utilization" d = Some (PyFloat (S754_zero false)) /\
       dict_get "miss_tokens" d =
         Some (PyInt (CacheSnapshot.requested_tokens s -
                      CacheSnapshot.hit_tokens s))) /\
  (forall latest,
     last (CacheTimeSeriesTracker._snapshots t) = Some latest ->
     ((CacheSnapshot.pool_size latest > 0)%Z ->
        (forall u,
           py_truediv (CacheSnapshot.total_tokens latest)
             (CacheSnapshot.pool_size latest) = Ok u ->
           exists d, CacheTimeSeriesTracker.get_stats_dict t = Ok d /\
             dict_get "utilization" d = Some (PyFloat u) /\
             dict_get "total_miss_tokens" d =
               Some (PyInt (CacheTimeSeriesTracker._requested_tokens t -
                            CacheTimeSeriesTracker._hit_tokens t))) /\
        (py_truediv (CacheSnapshot.total_tokens latest)
           (CacheSnapshot.pool_size latest) = Raise OverflowError ->
         CacheTimeSeriesTracker.get_stats_dict t = Raise OverflowError)) /\
     (CacheSnapshot.pool_size latest = 0%Z ->
        exists d, CacheTimeSeriesTracker.get_stats_dict t = Ok d /\
          dict_get "utilization" d = Some (PyFloat (S754_zero false)) /\
          dict_get "total_miss_tokens" d =
            Some (PyInt (CacheTimeSeriesTracker._requested_tokens t -
                         CacheTimeSeriesTracker._hit_tokens t)))) /\
  (CacheTimeSeriesTracker._snapshots t = [] ->
     exists d, CacheTimeSeriesTracker.get_stats_dict t = Ok d /\
       dict_get "utilization" d = Some (PyFloat (S754_zero false)) /\
       dict_get "total_miss_tokens" d =
         Some (PyInt (CacheTimeSeriesTracker._requested_tokens t -
                      CacheTimeSeriesTracker._hit_tokens t))).
Proof.
  split; [|split; [|split; [|split; [|split]]]].
  - destruct (Z_gt_le_dec (CacheSnapshot.pool_size s) 0) as [Hpos|Hle].
    + destruct (py_truediv_cases (CacheSnapshot.total_tokens s)
                  (CacheSnapshot.pool_size s) ltac:(lia)) as [(u & Hu)|Ho].
      * destruct (to_dict_returns s u) as (d & -> & _); [auto|discriminate].
      * rewrite (to_dict_overflows s Hpos Ho). discriminate.
    + destruct (to_dict_returns s (S754_zero false)) as (d & -> & _);
        [auto|discriminate].
  - destruct (last (CacheTimeSeriesTracker._snapshots t)) as [latest|] eqn:Hl.
    + destruct (Z_gt_le_dec (CacheSnapshot.pool_size latest) 0) as [Hpos|Hle].
      * destruct (py_truediv_cases (CacheSnapshot.total_tokens latest)
                    (CacheSnapshot.pool_size latest) ltac:(lia))
          as [(u & Hu)|Ho].
        -- destruct (get_stats_dict_returns t
                       (CacheSnapshot.total_tokens latest)
                       (CacheSnapshot.pool_size latest) u)
             as (d & -> & _); try (now rewrite Hl); [auto|discriminate].
        -- rewrite (get_stats_dict_overflows t latest Hl Hpos Ho). discriminate.
      * destruct (get_stats_dict_returns t
                    (CacheSnapshot.total_tokens latest)
                    (CacheSnapshot.pool_size latest) (S754_zero false))
          as (d & -> & _); try (now rewrite Hl); [auto|discriminate].
    + destruct (get_stats_dict_returns t 0%Z 0%Z (S754_zero false))
        as (d & -> & _); try (now rewrite Hl);
        [right; split; [lia|reflexivity]|discriminate].
  - intros Hpos. split.
    + intros u Hu. destruct (to_dict_returns s u) as (d & Hd & Hut & Hm & _);
        eauto.
    + now apply to_dict_overflows.
  - intros H0. destruct (to_dict_returns s (S754_zero false))
      as (d & Hd & Hut & Hm & _); [right; split; [lia|reflexivity]|eauto].
  - intros latest Hl. split.
    + intros Hpos. split.
      * intros u Hu.
        destruct (get_stats_dict_returns t (CacheSnapshot.total_tokens latest)
                    (CacheSnapshot.pool_size latest) u)
          as (d & Hd & Hut & Hm & _); try (now rewrite Hl); eauto.
      * now apply get_stats_dict_overflows.
    + intros H0.
      destruct (get_stats_dict_returns t (CacheSnapshot.total_tokens latest)
                  (CacheSnapshot.pool_size latest) (S754_zero false))
        as (d & Hd & Hut & Hm & _); try (now rewrite Hl);
        [right; split; [lia|reflexivity]|eauto].
  - intros Hnil.
    destruct (get_stats_dict_returns t 0%Z 0%Z (S754_zero false))
      as (d & Hd & Hut & Hm & _); try (now rewrite Hnil);
      [right; split; [lia|reflexivity]|eauto].
Qed.

Lemma utilization_guarded_witness :
  let quarter := S754_finite false 4503599627370496 (-54) in
  (CacheSnapshot.pool_size demo_snapshot > 0)%Z /\
  py_truediv 10 40 = Ok quarter /\
  last (CacheTimeSeriesTracker._snapshots demo_tracker) = Some demo_snapshot /\
  (exists d, CacheSnapshot.to_dict demo_snapshot = Ok d /\
     dict_get "utilization" d = Some (PyFloat quarter) /\
     dict_get "miss_tokens" d = Some (PyInt 2)) /\
  (exists d, CacheTimeSeriesTracker.get_stats_dict demo_tracker = Ok d /\
     dict_get "utilization" d = Some (PyFloat quarter) /\
     dict_get "total_miss_tokens" d = Some (PyInt 2)).
Proof.
  intros quarter.
  assert (Hpos : (CacheSnapshot.pool_size demo_snapshot > 0)%Z) by (simpl; lia).
  assert (Hdiv : py_truediv 10 40 = Ok quarter) by reflexivity.
  assert (Hlast : last (CacheTimeSeriesTracker._snapshots demo_tracker) =
                  Some demo_snapshot) by reflexivity.
  destruct (utilization_guarded demo_snapshot demo_tracker)
    as (_ & _ & Hs & _ & Ht & _).
  split; [exact Hpos|]. split; [exact Hdiv|]. split; [exact Hlast|]. split.
  - exact (proj1 (Hs Hpos) quarter Hdiv).
  - exact (proj1 (proj1 (Ht demo_snapshot Hlast) Hpos) quarter Hdiv).
Defined.

(** C10, as stated, fails: a snapshot with [total_tokens = 2 ** 1024] over a
    pool of one slot has a positive pool size, yet [to_dict] and
    [get_stats_dict] return no utilization, they raise [OverflowError]; and
    for one token over three slots the utilization is the double
    0.3333333333333333, not the quotient 1/3. *)
Lemma utilization_overflow :
  let huge := CacheSnapshot.mk 0 (2 ^ 1024) 0 0 1 0 0 0 None in
  let third := CacheSnapshot.mk 0 1 0 0 3 0 0 0 None in
  (CacheSnapshot.pool_size huge > 0)%Z /\
  CacheSnapshot.to_dict huge = Raise OverflowError /\
  CacheTimeSeriesTracker.get_stats_dict
    (CacheTimeSeriesTracker.mk 300 5 [huge] 0 0 0 0) = Raise OverflowError /\
  (exists d, CacheSnapshot.to_dict third = Ok d /\
     dict_get "utilization" d =
       Some (PyFloat (S754_finite false 6004799503160661 (-54)))).
Proof.
  intros huge third. split; [simpl; lia|].
  split; [vm_compute; reflexivity|]. split; [vm_compute; reflexivity|].
  eexists. split; vm_compute; reflexivity.
Qed.

(** * Further properties *)

(** ** The prefetch manager *)

Section PrefetchMore.
Context {Mem : Type} `{MM : MemManager Mem}.
Local Abbreviation M := (M Mem).
Local Abbreviation World := (World Mem).

Lemma tick_node_commits done n :
  tick_node done n = if commits done n then commit n else n.
Proof.
  unfold tick_node, commits. destruct (is_prefetching n); [|reflexivity].
  destruct (prefetch_event n) as [e|]; [|reflexivity]. reflexivity.
Qed.

Lemma tick_body_trace node (w : World) n :
  nodes w !! node = Some n ->
  is_prefetching n = true -> prefetch_event n <> None ->
  trace (exec (tick_body node) w) =
  trace w ++ prints_at (nodes w) (completed w) node.
Proof.
  intros Hn Hp He. destruct (prefetch_event n) as [e|] eqn:Hev; [|congruence].
  unfold exec, tick_body, bind, prints_at, commits.
  rewrite (getattr_Some _ _ _ _ Hn), Hev, Hn, Hp, Hev.
  unfold event_query. cbn [andb].
  destruct (existsb (Nat.eqb e) (completed w)).
  - erewrite setattr_Some by exact Hn.
    erewrite getattr_Some by (simpl; eapply lookup_after_set; exact Hn).
    erewrite setattr_Some by (simpl; eapply lookup_after_set; exact Hn).
    erewrite setattr_Some
      by (simpl; eapply lookup_after_set; eapply lookup_after_set; exact Hn).
    erewrite getattr_Some
      by (simpl; do 3 eapply lookup_after_set; exact Hn).
    reflexivity.
  - simpl. now rewrite app_nil_r.
Qed.

Lemma flat_map_agree {A B} (f g : A -> list B) (l : list A) :
  (forall x, In x l -> f x = g x) -> flat_map f l = flat_map g l.
Proof.
  induction l as [|x l IH]; intros H; [reflexivity|].
  cbn [flat_map]. rewrite (H x (or_introl eq_refl)), IH; [reflexivity|].
  intros y Hy. apply H. now right.
Qed.

Lemma tick_loop_trace (l : list NodeRef) : forall (w : World),
  NoDup l ->
  (forall i, i ∈ l -> exists n, nodes w !! i = Some n /\
      is_prefetching n = true /\ prefetch_event n <> None) ->
  trace (exec (for_each l tick_body) w) =
  trace w ++ flat_map (prints_at (nodes w) (completed w)) l.
Proof.
  induction l as [|i l IH]; intros w Hnd Hl.
  - simpl. now rewrite app_nil_r.
  - apply NoDup_cons in Hnd as [Hi Hnd].
    destruct (Hl i) as (n & Hn & Hp & He); [left|].
    pose proof (tick_body_trace i w n Hn Hp He) as Htr.
    destruct (tick_body_loading i w n Hn Hp He)
      as (w1 & Hrun & Hns & _ & _ & _ & _ & Hdone).
    unfold exec in *. cbn [for_each flat_map]. unfold bind.
    rewrite Hrun in *. cbn [snd] in Htr.
    rewrite IH; [|exact Hnd|].
    + rewrite Htr, <- app_assoc. f_equal. f_equal.
      apply flat_map_agree. intros j Hj. unfold prints_at.
      rewrite Hdone, Hns, list_lookup_insert_ne; [reflexivity|].
      intros ->. apply Hi, list_elem_of_In, Hj.
    + intros j Hj. destruct (Hl j) as (m & Hm & Hpm & Hem); [now right|].
      exists m. rewrite Hns, list_lookup_insert_ne by (intros ->; contradiction).
      auto.
Qed.

Lemma flat_map_lookup_seq {A B} (f : A -> list B) (l : list A) :
  flat_map (fun i => match l !! i with Some a => f a | None => [] end)
    (seq 0 (length l)) = flat_map f l.
Proof.
  induction l as [|x l IH] using rev_ind; [reflexivity|].
  rewrite length_app, seq_app, !flat_map_app. cbn [length seq flat_map].
  rewrite Nat.add_0_l, !app_nil_r, <- IH. f_equal.
  - apply flat_map_agree. intros i Hi%in_seq.
    rewrite lookup_app_l by lia. reflexivity.
  - rewrite lookup_app_r by lia. now rewrite Nat.sub_diag.
Qed.

Lemma flat_map_filter_nil {A B} (f : A -> list B) (p : A -> bool) (l : list A) :
  (forall x, p x = false -> f x = []) ->
  flat_map f (List.filter p l) = flat_map f l.
Proof.
  intros Hf. induction l as [|x l IH]; [reflexivity|].
  cbn [List.filter flat_map]. destruct (p x) eqn:Hp.
  - cbn [flat_map]. now rewrite IH.
  - now rewrite IH, (Hf x Hp).
Qed.

Lemma tick_unfold self (w : World) :
  tick self w =
  for_each (List.filter (is_loading (nodes w)) (seq 0 (length (nodes w))))
    tick_body w.
Proof.
  assert (Hrange : Forall (fun i => i < length (nodes w))
                     (seq 0 (length (nodes w)))).
  { apply Forall_forall. intros i Hi%elem_of_seq. lia. }
  unfold tick, bind, get_all_nodes.
  rewrite (comprehension_loading _ _ Hrange). reflexivity.
Qed.

Lemma tick_runs self (w : World) :
  handles_present (nodes w) -> tick self w = (Ok tt, tick_result w).
Proof.
  intros Hh.
  destruct (tick_spec self w Hh) as (w' & Hrun & Hns & Hm & Hc & Hs & He & Hd).
  assert (Htr : trace w' = trace w ++ tick_prints (completed w) (nodes w)).
  { pose proof Hrun as Hrun'. rewrite tick_unfold in Hrun'.
    pose proof (tick_loop_trace
                  (List.filter (is_loading (nodes w)) (seq 0 (length (nodes w)))) w)
      as Ht.
    unfold exec in Ht. rewrite Hrun' in Ht. cbn [snd] in Ht. rewrite Ht.
    - f_equal. rewrite flat_map_filter_nil.
      + unfold tick_prints.
        rewrite <- (flat_map_lookup_seq
                      (fun n => if commits (completed w) n
                                then [call_print (node_id n)] else [])
                      (nodes w)).
        reflexivity.
      + intros i Hi. unfold prints_at, is_loading, commits in *.
        destruct (nodes w !! i) as [n|]; [|reflexivity]. now rewrite Hi.
    - apply NoDup_ListNoDup, List.NoDup_filter, List.seq_NoDup.
    - intros i Hi%list_elem_of_In%filter_In. destruct Hi as [_ Hi].
      unfold is_loading in Hi.
      destruct (nodes w !! i) as [n|] eqn:Hn; [|discriminate].
      exists n. split; [reflexivity|]. split; [exact Hi|].
      exact (Forall_lookup_1 _ _ _ _ Hh Hn Hi). }
  rewrite Hrun. f_equal. destruct w'. simpl in *. unfold tick_result.
  congruence.
Qed.

Lemma reachable_handles self (w : World) :
  reachable self w -> handles_present (nodes w).
Proof.
  intros Hr. apply (reachable_inv (fun _ _ => True)) in Hr; [|auto].
  destruct Hr as (_ & _ & Hall). eapply node_inv_handles; eauto.
Qed.

(** The three ways a call of [request_prefetch] can end. *)
Lemma request_prefetch_cases self node (w : World) :
  exec (request_prefetch self node) w = w \/
  (exists n host m',
     nodes w !! node = Some n /\ host_value n = Some host /\
     alloc_gpu (length host) (mem w) = (None, m') /\
     exec (request_prefetch self node) w =
     log (call_alloc_gpu (length host) None) (set_mem m' w)) \/
  (exists n host gpu m',
     nodes w !! node = Some n /\ value n = None /\
     host_value n = Some host /\ is_prefetching n = false /\
     alloc_gpu (length host) (mem w) = (Some gpu, m') /\
     request_prefetch self node w =
     (Ok tt,
      mkWorld (<[node := start_prefetch gpu (next_event w) n]> (nodes w))
        (copy_from_cpu (stream self) host gpu m')
        (current_stream w) (next_stream w) (S (next_event w)) (completed w)
        (trace w ++ [call_alloc_gpu (length host) (Some gpu);
                     call_copy_from_cpu (stream self) host gpu;
                     call_event_record (next_event w) (stream self)]))).
Proof.
  unfold exec.
  destruct (nodes w !! node) as [n|] eqn:Hlook.
  2:{ left. now rewrite request_prefetch_dangling. }
  destruct (value n) as [v|] eqn:Hv.
  { left. rewrite (request_prefetch_guard _ _ _ n); auto. left. congruence. }
  destruct (host_value n) as [host|] eqn:Hh.
  2:{ left. rewrite (request_prefetch_guard _ _ _ n); auto. }
  destruct (is_prefetching n) eqn:Hp.
  { left. rewrite (request_prefetch_guard _ _ _ n); auto. }
  rewrite (request_prefetch_unfold _ _ _ n host) by assumption.
  destruct (alloc_gpu (length host) (mem w)) as [[gpu|] m'] eqn:Ha.
  - right; right. exists n, host, gpu, m'. auto 10.
  - right; left. exists n, host, m'. auto.
Qed.

(** X1.  Whatever its outcome, [request_prefetch] keeps the number of
    nodes, leaves every other node as it was, never changes the [value],
    the [host_value], the id or the children of any node, and leaves the
    finished events and the streams alone. *)
Theorem request_prefetch_frame self node (w : World) :
  let w' := exec (request_prefetch self node) w in
  length (nodes w') = length (nodes w) /\
  (forall j, j <> node -> nodes w' !! j = nodes w !! j) /\
  (forall j n, nodes w !! j = Some n ->
     exists n', nodes w' !! j = Some n' /\
       value n' = value n /\ host_value n' = host_value n /\
       node_id n' = node_id n /\ children n' = children n) /\
  completed w' = completed w /\
  current_stream w' = current_stream w /\
  next_stream w' = next_stream w.
Proof.
  intros w'. subst w'.
  destruct (request_prefetch_cases self node w)
    as [->|[(n & host & m' & _ & _ & _ & ->)
           |(n & host & gpu & m' & Hn & _ & _ & _ & _ & Hrun)]].
  - repeat split; eauto 10.
  - simpl. repeat split; eauto 10.
  - unfold exec. rewrite Hrun. simpl. split; [apply length_insert|].
    split; [intros j Hj; now apply list_lookup_insert_ne|].
    split; [|auto].
    intros j m Hm. destruct (decide (j = node)) as [->|Hj].
    + rewrite (lookup_after_set _ _ _ _ Hn). eexists; split; [reflexivity|].
      assert (m = n) by congruence. subst m. simpl. auto.
    + rewrite list_lookup_insert_ne by congruence. eauto 10.
Qed.

Lemma tick_reachable self (w : World) :
  reachable self w ->
  tick self w = (Ok tt, tick_result w) /\
  (forall node n, nodes w !! node = Some n ->
     nodes (tick_result w) !! node =
     Some (if commits (completed w) n then commit n else n)).
Proof.
  intros Hr. split; [apply tick_runs; eapply reachable_handles; eauto|].
  intros node n Hn. unfold tick_result. cbn [nodes].
  change (map ?f ?l) with (f <$> l).
  now rewrite list_lookup_fmap, Hn, <- tick_node_commits.
Qed.

(** X2.  On a reachable state [tick] returns and its whole effect is: every
    node with a transfer outstanding whose event has finished is committed,
    one line is printed for each of them in the order of the tree, and
    nothing else changes -- the allocator, the streams and the events are
    as before. *)
Theorem tick_effect self (w : World) :
  reachable self w ->
  tick self w = (Ok tt, tick_result w) /\
  (forall node n, nodes w !! node = Some n ->
     nodes (tick_result w) !! node =
     Some (if commits (completed w) n then commit n else n)) /\
  mem (tick_result w) = mem w /\
  trace (tick_result w) = trace w ++ tick_prints (completed w) (nodes w).
Proof.
  intros Hr. destruct (tick_reachable self w Hr) as (Hrun & Hnodes).
  repeat split; assumption.
Qed.

(** X3.  A [tick] when no node has a transfer outstanding (an empty tree
    included) changes nothing at all and prints nothing. *)
Theorem tick_nothing_loading self (w : World) :
  Forall (fun n => is_prefetching n = false) (nodes w) ->
  tick self w = (Ok tt, w).
Proof.
  intros Hall. rewrite tick_unfold.
  replace (List.filter (is_loading (nodes w)) (seq 0 (length (nodes w))))
    with (@nil NodeRef); [reflexivity|].
  symmetry. induction (seq 0 (length (nodes w))) as [|i l IH]; [reflexivity|].
  cbn [List.filter]. unfold is_loading at 1.
  destruct (nodes w !! i) as [n|] eqn:Hn; [|exact IH].
  now rewrite (Forall_lookup_1 _ _ _ _ Hall Hn).
Qed.

Lemma commits_tick_node done n : commits done (tick_node done n) = false.
Proof.
  rewrite tick_node_commits. destruct (commits done n) eqn:Hc; [|exact Hc].
  reflexivity.
Qed.

Lemma tick_result_twice (w : World) :
  tick_result (tick_result w) = tick_result w.
Proof.
  unfold tick_result. simpl. f_equal.
  - rewrite map_map. apply map_ext. intros n.
    now rewrite (tick_node_commits _ (tick_node _ n)), commits_tick_node.
  - rewrite <- (app_nil_r (trace w ++ _)) at 2. f_equal.
    unfold tick_prints. induction (nodes w) as [|n l IH]; [reflexivity|].
    cbn [map flat_map]. now rewrite commits_tick_node, IH.
Qed.

(** X4.  Two [tick]s in a row, with no progress of the device in between,
    do what one does: the second changes nothing and prints nothing. *)
Theorem tick_twice self (w : World) :
  reachable self w ->
  tick self (exec (tick self) w) = (Ok tt, exec (tick self) w).
Proof.
  intros Hr.
  assert (Hw1 : exec (tick self) w = tick_result w).
  { unfold exec. rewrite (tick_runs self w); [reflexivity|].
    eapply reachable_handles; eauto. }
  pose proof (reach_tick _ _ Hr) as Hr'. rewrite Hw1 in *.
  rewrite (tick_runs self (tick_result w))
    by (eapply reachable_handles; eauto).
  now rewrite tick_result_twice.
Qed.

(** X5.  The whole promotion of a node: after a successful
    [request_prefetch] a [tick] that comes before the copy has finished
    leaves the node as the request left it, and the first [tick] after the
    device has finished the copy makes the reserved indices the node's
    [value], with nothing pending and the host copy kept. *)
Theorem prefetch_lifecycle self (w : World) node n host gpu m' :
  reachable self w ->
  nodes w !! node = Some n ->
  host_resident n ->
  host_value n = Some host ->
  alloc_gpu (length host) (mem w) = (Some gpu, m') ->
  existsb (Nat.eqb (next_event w)) (completed w) = false ->
  let w1 := exec (request_prefetch self node) w in
  let w2 := device_completes (next_event w) w1 in
  nodes (exec (tick self) w1) !! node =
    Some (start_prefetch gpu (next_event w) n) /\
  exists n', nodes (exec (tick self) w2) !! node = Some n' /\
    value n' = Some gpu /\ is_prefetching n' = false /\
    pending_gpu_indices n' = None /\ host_value n' = Some host.
Proof.
  intros Hr Hn (Hv & _ & Hp) Hh Ha Hfresh w1 w2.
  assert (Hr1 : reachable self w1) by now apply reach_request.
  assert (Hr2 : reachable self w2) by now apply reach_device.
  assert (Hw1 : w1 =
    mkWorld (<[node := start_prefetch gpu (next_event w) n]> (nodes w))
      (copy_from_cpu (stream self) host gpu m')
      (current_stream w) (next_stream w) (S (next_event w)) (completed w)
      (trace w ++ [call_alloc_gpu (length host) (Some gpu);
                   call_copy_from_cpu (stream self) host gpu;
                   call_event_record (next_event w) (stream self)])).
  { subst w1. unfold exec.
    rewrite (request_prefetch_unfold _ _ _ n host) by assumption.
    now rewrite Ha. }
  assert (Hl1 : nodes w1 !! node = Some (start_prefetch gpu (next_event w) n)).
  { rewrite Hw1. simpl. eapply lookup_after_set; eauto. }
  split.
  - destruct (tick_reachable self w1 Hr1) as (Hrun & Hnodes).
    unfold exec. rewrite Hrun. cbn [snd]. rewrite (Hnodes _ _ Hl1).
    unfold commits. simpl. rewrite Hw1. simpl. now rewrite Hfresh.
  - destruct (tick_reachable self w2 Hr2) as (Hrun & Hnodes).
    unfold exec. rewrite Hrun. cbn [snd].
    assert (Hl2 : nodes w2 !! node = Some (start_prefetch gpu (next_event w) n))
      by exact Hl1.
    rewrite (Hnodes _ _ Hl2). unfold commits. simpl.
    rewrite Nat.eqb_refl. simpl. eexists; split; [reflexivity|]. simpl. auto.
Qed.

Lemma tick_node_still_loading done n :
  is_prefetching (tick_node done n) = true ->
  tick_node done n = n /\ is_prefetching n = true.
Proof.
  rewrite tick_node_commits. unfold commits.
  destruct (is_prefetching n) eqn:Hp; simpl; [|now rewrite Hp].
  destruct (prefetch_event n) as [e|]; simpl; [|auto].
  destruct (existsb (Nat.eqb e) done); simpl; [discriminate|auto].
Qed.

Lemma events_fresh_inv self (w : World) :
  reachable self w -> events_fresh w.
Proof.
  induction 1 as [w0 self w (_ & _ & Hn) Hi|self w node Hr IH|self w Hr IH
                 |self w e _ IH].
  - injection Hi as <- <-. simpl. split.
    + intros i n e Hl Hp. pose proof (Forall_lookup_1 _ _ _ _ Hn Hl). congruence.
    + intros i j ni nj e _ Hl _ Hp.
      pose proof (Forall_lookup_1 _ _ _ _ Hn Hl). congruence.
  - destruct IH as (Hb & Hd).
    destruct (request_prefetch_cases self node w)
      as [->|[(n & host & m' & _ & _ & _ & ->)
             |(n & host & gpu & m' & Hn & _ & _ & Hp & _ & Hrun)]];
      [split; assumption|split; assumption|].
    unfold exec. rewrite Hrun. cbn [snd]. split; simpl.
    + intros i m e Hl Hpm He. destruct (decide (i = node)) as [->|Hne].
      * rewrite (lookup_after_set _ _ _ _ Hn) in Hl. injection Hl as <-.
        simpl in He. injection He as <-. lia.
      * rewrite list_lookup_insert_ne in Hl by congruence.
        specialize (Hb i m e Hl Hpm He). lia.
    + intros i j ni nj e Hij Hi Hj Hpi Hpj Hei Hej.
      destruct (decide (i = node)) as [->|Hin];
        destruct (decide (j = node)) as [->|Hjn]; try congruence.
      * rewrite (lookup_after_set _ _ _ _ Hn) in Hi. injection Hi as <-.
        rewrite list_lookup_insert_ne in Hj by congruence.
        simpl in Hei. injection Hei as <-.
        specialize (Hb j nj _ Hj Hpj Hej). lia.
      * rewrite (lookup_after_set _ _ _ _ Hn) in Hj. injection Hj as <-.
        rewrite list_lookup_insert_ne in Hi by congruence.
        simpl in Hej. injection Hej as <-.
        specialize (Hb i ni _ Hi Hpi Hei). lia.
      * rewrite list_lookup_insert_ne in Hi, Hj by congruence.
        exact (Hd i j ni nj e Hij Hi Hj Hpi Hpj Hei Hej).
  - destruct IH as (Hb & Hd).
    unfold exec. rewrite (tick_runs self w) by (eapply reachable_handles; eauto).
    cbn [snd]. unfold tick_result. split; simpl.
    + intros i m e Hl Hpm He.
      change (map ?f ?l) with (f <$> l) in Hl.
      rewrite list_lookup_fmap in Hl.
      destruct (nodes w !! i) as [n|] eqn:Hn; [|discriminate].
      injection Hl as <-. apply tick_node_still_loading in Hpm as Hs.
      destruct Hs as (Heq & Hp). rewrite Heq in He. eauto.
    + intros i j ni nj e Hij Hi Hj Hpi Hpj Hei.
      change (map ?f ?l) with (f <$> l) in Hi, Hj.
      rewrite list_lookup_fmap in Hi, Hj.
      destruct (nodes w !! i) as [mi|] eqn:Hmi; [|discriminate].
      destruct (nodes w !! j) as [mj|] eqn:Hmj; [|discriminate].
      injection Hi as <-. injection Hj as <-.
      apply tick_node_still_loading in Hpi as (Heqi & Hpi').
      apply tick_node_still_loading in Hpj as (Heqj & Hpj').
      rewrite Heqi in Hei. rewrite Heqj. eauto.
  - exact IH.
Qed.

(** X6.  In every reachable state the completion handles of the transfers
    in flight have all been created (they lie below the event counter) and
    no two nodes share one. *)
Theorem reachable_events_fresh self (w : World) node_a node_b a b ea eb :
  reachable self w ->
  nodes w !! node_a = Some a -> nodes w !! node_b = Some b ->
  is_prefetching a = true -> is_prefetching b = true ->
  prefetch_event a = Some ea -> prefetch_event b = Some eb ->
  ea < next_event w /\ (node_a <> node_b -> ea <> eb).
Proof.
  intros Hr Ha Hb Hpa Hpb Hea Heb.
  destruct (events_fresh_inv self w Hr) as (Hbound & Hdist).
  split; [eauto|]. intros Hne ->.
  exact (Hdist node_a node_b a b eb Hne Ha Hb Hpa Hpb Hea Heb).
Qed.

(** X7.  When the device finishes the copy of one node, the next [tick]
    commits that node and leaves alone every other node whose own copy has
    not finished. *)
Theorem tick_commits_only_finished self (w : World) node n e other m :
  reachable self w ->
  nodes w !! node = Some n ->
  is_prefetching n = true ->
  prefetch_event n = Some e ->
  other <> node ->
  nodes w !! other = Some m ->
  commits (completed w) m = false ->
  let w' := exec (tick self) (device_completes e w) in
  nodes w' !! node = Some (commit n) /\ nodes w' !! other = Some m.
Proof.
  intros Hr Hn Hp He Hne Hm Hc w'.
  pose proof (events_fresh_inv _ _ Hr) as (_ & Hd).
  destruct (tick_reachable self (device_completes e w) (reach_device _ _ e Hr))
    as (Hrun & Hnodes).
  subst w'. unfold exec. rewrite Hrun. cbn [snd]. split.
  - rewrite (Hnodes node n) by exact Hn.
    unfold commits. simpl. now rewrite Hp, He, Nat.eqb_refl.
  - rewrite (Hnodes other m) by exact Hm.
    replace (commits (completed (device_completes e w)) m) with false;
      [reflexivity|].
    symmetry. unfold commits in *. simpl.
    destruct (is_prefetching m) eqn:Hpm; [|reflexivity]. simpl in *.
    destruct (prefetch_event m) as [e'|] eqn:Hem; [|reflexivity].
    rewrite Hc, orb_false_r. apply Nat.eqb_neq. intros ->.
    exact (Hd node other n m e (not_eq_sym Hne) Hn Hm Hp Hpm He Hem).
Qed.

End PrefetchMore.

(** ** The eviction strategies *)

Lemma SFcompare_antisym x y :
  SFcompare y x = option_map CompOpp (SFcompare x y).
Proof.
  destruct x as [sx|sx| |sx mx ex], y as [sy|sy| |sy my ey]; simpl;
    try reflexivity;
    try (destruct sx; reflexivity); try (destruct sy; reflexivity);
    try (destruct sx, sy; reflexivity).
  assert (Hm : Pos.compare_cont Eq my mx = CompOpp (Pos.compare_cont Eq mx my))
    by (symmetry; apply (Pos.compare_cont_antisym mx my Eq)).
  f_equal. rewrite (Z.compare_antisym ex ey), Hm.
  destruct sx, sy; try reflexivity;
    destruct (ex ?= ey)%Z; simpl; try reflexivity;
    now destruct (Pos.compare_cont Eq mx my).
Qed.

Lemma SFcompare_opp x y : SFcompare (SFopp x) (SFopp y) = SFcompare y x.
Proof.
  rewrite (SFcompare_antisym x y).
  destruct x as [sx|sx| |sx mx ex], y as [sy|sy| |sy my ey]; simpl;
    try reflexivity;
    try (destruct sx; reflexivity); try (destruct sy; reflexivity);
    try (destruct sx, sy; reflexivity).
  f_equal. destruct sx, sy; try reflexivity; simpl;
    destruct (ex ?= ey)%Z; simpl; try reflexivity;
    now destruct (Pos.compare_cont Eq mx my).
Qed.

Lemma SFltb_opp x y : SFltb (SFopp x) (SFopp y) = SFltb y x.
Proof. unfold SFltb. now rewrite SFcompare_opp. Qed.

Lemma SFltb_asym x y : SFltb x y = true -> SFltb y x = false.
Proof.
  unfold SFltb. rewrite (SFcompare_antisym x y).
  destruct (SFcompare x y) as [[]|]; simpl; congruence.
Qed.

Section EvictMore.
Context {Mem : Type}.
Local Abbreviation World := (World Mem).

Lemma get_priority_dangling s node (w : World) :
  nodes w !! node = None -> get_priority s node w = (Raise ReferenceError, w).
Proof.
  intros Hn. destruct s;
    unfold get_priority, get_agent_leaf_memory, bind, getattr; now rewrite Hn.
Qed.

Lemma evicted_before_dangling s node_a node_b (w : World) :
  nodes w !! node_a = None \/ nodes w !! node_b = None ->
  evicted_before s node_a node_b w = None.
Proof.
  intros [H|H]; unfold evicted_before;
    rewrite (get_priority_dangling s _ w H); simpl; [reflexivity|].
  destruct (fst (get_priority s node_a w)); reflexivity.
Qed.

(** X8.  MRU evicts in exactly the opposite order to LRU, and FILO in the
    opposite order to FIFO, for any two nodes and any times. *)
Theorem mru_filo_reverse node_a node_b (w : World) :
  evicted_before MRUStrategy node_a node_b w =
    evicted_before LRUStrategy node_b node_a w /\
  evicted_before FILOStrategy node_a node_b w =
    evicted_before FIFOStrategy node_b node_a w.
Proof.
  destruct (nodes w !! node_a) as [a|] eqn:Ha;
    destruct (nodes w !! node_b) as [b|] eqn:Hb;
    [unfold evicted_before|
     now rewrite !evicted_before_dangling by auto ..].
  - run_reads. simpl. now rewrite !SFltb_opp.
Qed.

(** Two keys of one strategy have the same shape. *)
Lemma get_priority_same_shape s node_a node_b (w : World) ka kb :
  fst (get_priority s node_a w) = Ok ka ->
  fst (get_priority s node_b w) = Ok kb ->
  (exists x y, ka = KFloat x /\ kb = KFloat y) \/
  (exists x y, ka = KInt x /\ kb = KInt y) \/
  (exists a x b y, ka = KTuple a x /\ kb = KTuple b y).
Proof.
  destruct (nodes w !! node_a) as [a|] eqn:Ha;
    [|rewrite (get_priority_dangling s _ w Ha); discriminate].
  destruct (nodes w !! node_b) as [b|] eqn:Hb;
    [|rewrite (get_priority_dangling s _ w Hb); discriminate].
  destruct s; unfold get_priority, get_agent_leaf_memory; run_reads;
    cbn [fst]; intros Hka Hkb;
    try (injection Hka as <-; injection Hkb as <-; eauto 10).
  - destruct (workflow_eviction_value a), (workflow_eviction_value b);
      injection Hka as <-; injection Hkb as <-; eauto 10.
  - destruct (subtree_tokens _ _ node_a); [|discriminate].
    destruct (subtree_tokens _ _ node_b); [|discriminate].
    injection Hka as <-; injection Hkb as <-; eauto 10.
Qed.

(** X9.  The keys of one strategy can always be compared (no [TypeError]
    in the caller's heap), and the order they give is asymmetric: a node
    that comes strictly before another never also comes after it. *)
Theorem eviction_order_asymmetric s node_a node_b (w : World) ka kb :
  fst (get_priority s node_a w) = Ok ka ->
  fst (get_priority s node_b w) = Ok kb ->
  (exists lt, evicted_before s node_a node_b w = Some lt) /\
  (evicted_before s node_a node_b w = Some true ->
   evicted_before s node_b node_a w = Some false).
Proof.
  intros Hka Hkb. unfold evicted_before. rewrite Hka, Hkb.
  destruct (get_priority_same_shape s node_a node_b w ka kb Hka Hkb)
    as [(x & y & -> & ->)|[(x & y & -> & ->)|(a & x & b & y & -> & ->)]];
    simpl; (split; [eauto|]); intros [= H]; f_equal.
  - now apply SFltb_asym.
  - lia.
  - rewrite (Z.eqb_sym b a). destruct (a =? b)%Z; [now apply SFltb_asym|lia].
Qed.


(** X11.  Under the steps-to-execution strategy, of two nodes with a
    prediction the one farther from execution comes first; a node without a
    prediction comes strictly before exactly the nodes predicted to run in
    fewer than 9999999 steps, and two nodes without a prediction tie. *)
Theorem steps_farthest_first node_a node_b (w : World) a b :
  nodes w !! node_a = Some a ->
  nodes w !! node_b = Some b ->
  evicted_before StepsToExecutionStrategy node_a node_b w =
  Some match workflow_eviction_value a, workflow_eviction_value b with
       | Some sa, Some sb => (sb <? sa)%Z
       | None, Some sb => (sb <? 9999999)%Z
       | Some sa, None => (9999999 <? sa)%Z
       | None, None => false
       end.
Proof.
  intros Ha Hb. unfold evicted_before. run_reads.
  destruct (workflow_eviction_value a) as [sa|],
           (workflow_eviction_value b) as [sb|]; simpl; f_equal;
    try reflexivity;
    match goal with |- (?x <? ?y)%Z = (?u <? ?v)%Z =>
      destruct (Z.ltb_spec x y), (Z.ltb_spec u v); lia end.
Qed.

End EvictMore.

(** ** The time series tracker *)

Import CacheTimeSeriesTracker.

Lemma py_lt_true x y : py_lt x y = true <-> (x < y)%Q.
Proof.
  unfold py_lt. rewrite negb_true_iff, <- not_true_iff_false, Qle_bool_iff.
  split; [apply Qnot_le_lt|apply Qlt_not_le].
Qed.

Lemma py_lt_false x y : py_lt x y = false <-> (y <= x)%Q.
Proof.
  unfold py_lt. rewrite negb_false_iff. apply Qle_bool_iff.
Qed.

(** X12.  Any number of [record_match] calls adds one request per call and
    the matched and requested tokens of each call to the counters, and
    touches neither the history nor the time of the last snapshot. *)
Theorem record_match_accumulates (calls : list (Z * Z)) (self : CacheTimeSeriesTracker.t) :
  let self' :=
    fold_left (fun t c => record_match (fst c) (snd c) t) calls self in
  _total_requests self' = (_total_requests self + Z.of_nat (length calls))%Z /\
  _hit_tokens self' = (_hit_tokens self + py_sum (map fst calls))%Z /\
  _requested_tokens self' =
    (_requested_tokens self + py_sum (map snd calls))%Z /\
  _snapshots self' = _snapshots self /\
  _last_snapshot_time self' = _last_snapshot_time self /\
  max_history_seconds self' = max_history_seconds self /\
  snapshot_interval self' = snapshot_interval self.
Proof.
  assert (Hsum : forall l a, fold_left Z.add l a = (a + fold_left Z.add l 0)%Z).
  { induction l as [|x l IH]; intros a; cbn [fold_left]; [lia|].
    rewrite (IH (a + x)%Z), (IH (0 + x)%Z). lia. }
  revert self. induction calls as [|[m r] calls IH]; intros self.
  - simpl. unfold py_sum. simpl. repeat split; lia.
  - cbn [fold_left map length fst snd]. cbn zeta in IH.
    destruct (IH (record_match m r self)) as (H1 & H2 & H3 & H4 & H5 & H6 & H7).
    unfold py_sum in *. cbn [fold_left].
    rewrite (Hsum (map fst calls) (0 + m)%Z), (Hsum (map snd calls) (0 + r)%Z).
    rewrite H1, H2, H3, H4, H5, H6, H7. simpl. repeat split; lia.
Qed.

(** X13.  A [take_snapshot] that comes less than [snapshot_interval] after
    the last one returns [None] and leaves the tracker as it was, without
    looking at the cache. *)
Theorem take_snapshot_rate_limited fuel now cache ns (self : CacheTimeSeriesTracker.t) :
  (now - _last_snapshot_time self < snapshot_interval self)%Q ->
  take_snapshot fuel now cache ns self = Some (Ok (None, self)).
Proof.
  intros Hlt. unfold take_snapshot.
  now rewrite (proj2 (py_lt_true _ _) Hlt).
Qed.

Lemma prune_keeps_last cutoff snaps s :
  (cutoff <= CacheSnapshot.timestamp s)%Q ->
  last (prune cutoff (snaps ++ [s])) = Some s.
Proof.
  intros Hs. induction snaps as [|x snaps IH]; cbn [app prune].
  - now rewrite (proj2 (py_lt_false _ _) Hs).
  - destruct (py_lt (CacheSnapshot.timestamp x) cutoff); [exact IH|].
    change (x :: snaps ++ [s]) with ((x :: snaps) ++ [s]).
    apply last_snoc.
Qed.












(** ** The node statistics *)

Lemma visits_pos b r : 1 <= visits b r.
Proof. destruct r; simpl; lia. Qed.

Lemma visits_mono b r r' : r <= r' -> visits b r <= visits b r'.
Proof.
  induction 1 as [|r' _ IH]; [lia|].
  etransitivity; [exact IH|]. cbn [visits].
  destruct b as [|b]; [destruct r'; simpl; lia|].
  pose proof (visits_pos (S b) r'). nia.
Qed.

Lemma max_children_bound (ns : list TreeNode) i n :
  ns !! i = Some n -> length (children n) <= max_children ns.
Proof.
  revert i. induction ns as [|x ns IH]; intros [|i] H; try discriminate;
    simpl in *.
  - injection H as ->. lia.
  - specialize (IH i H). lia.
Qed.

Lemma list_sum_rev l : list_sum (rev l) = list_sum l.
Proof.
  induction l as [|x l IH]; [reflexivity|].
  simpl. rewrite list_sum_app, IH. simpl. lia.
Qed.

Lemma children_work b rank (depth : Z) (cs : list (Z * NodeRef)) r :
  Forall (fun c => rank (snd c) < r) cs ->
  length cs <= b ->
  stack_work b rank (rev (map (fun c => (snd c, (depth + 1)%Z)) cs)) + 1
  <= visits b r.
Proof.
  intros Hcs Hb. unfold stack_work. rewrite map_rev, list_sum_rev, map_map.
  cbn [fst].
  destruct r as [|r].
  { destruct cs as [|c cs]; [simpl; lia|].
    apply Forall_cons in Hcs as (Hc & _). lia. }
  assert (Hsum : list_sum (map (fun c => visits b (rank (snd c))) cs)
                 <= length cs * visits b r).
  { clear Hb. induction Hcs as [|c cs Hc _ IH]; [simpl; lia|].
    cbn [map list_sum length].
    pose proof (visits_mono b (rank (snd c)) r ltac:(lia)).
    rewrite Nat.mul_succ_l. unfold list_sum in *. cbn [fold_right]. lia. }
  cbn [visits]. nia.
Qed.

Lemma collect_loop_ends (ns : list TreeNode) rank root :
  ranked rank ns ->
  forall fuel stack acc,
    Forall (fun p => fst p < length ns) stack ->
    stack_work (max_children ns) rank stack <= fuel ->
    exists acc', collect_loop fuel ns root stack acc = Some acc'.
Proof.
  intros Hrk. induction fuel as [|fuel IH]; intros stack acc Hin Hw.
  - destruct stack as [|[i d] rest]; [eexists; reflexivity|].
    unfold stack_work in Hw. simpl in Hw.
    pose proof (visits_pos (max_children ns) (rank i)). lia.
  - destruct stack as [|[i d] rest]; [eexists; reflexivity|].
    apply Forall_cons in Hin as (Hi & Hrest). cbn [fst] in Hi.
    apply lookup_lt_is_Some_2 in Hi as [n Hn].
    cbn [collect_loop]. rewrite Hn. apply IH.
    + apply Forall_app. split; [|exact Hrest].
      apply Forall_rev, Forall_fmap. eapply Forall_impl; [exact (Hrk i n Hn)|].
      intros c (Hc & _). exact Hc.
    + pose proof (children_work (max_children ns) rank d (children n) (rank i))
        as Hc.
      unfold stack_work in *. rewrite map_app, list_sum_app.
      cbn [map fst] in Hw.
      change (list_sum (?x :: ?l)) with (x + list_sum l) in Hw.
      assert (Hlt : Forall (fun c => rank (snd c) < rank i) (children n)).
      { eapply Forall_impl; [exact (Hrk i n Hn)|]. intros c (_ & Hc'). exact Hc'. }
      specialize (Hc Hlt (max_children_bound ns i n Hn)). lia.
Qed.

Lemma collect_loop_more_fuel (ns : list TreeNode) root :
  forall fuel stack acc acc',
    collect_loop fuel ns root stack acc = Some acc' ->
    forall fuel', fuel <= fuel' ->
      collect_loop fuel' ns root stack acc = Some acc'.
Proof.
  induction fuel as [|fuel IH]; intros stack acc acc' Hrun fuel' Hle;
    destruct stack as [|[i d] rest];
    try (destruct fuel'; exact Hrun); try discriminate.
  destruct fuel' as [|fuel']; [lia|].
  cbn [collect_loop] in *. destruct (ns !! i); [|discriminate].
  apply (IH _ _ _ Hrun). lia.
Qed.

Lemma build_stats_ok (acc : Walk) : exists stats, build_stats acc = Ok stats.
Proof.
  unfold build_stats, py_mean.
  destruct (node_sizes acc) as [|first others]; [eexists; reflexivity|].
  destruct (Z.eqb_spec (Z.of_nat (length (first :: others))) 0) as [H0|_];
    [simpl in H0; lia|].
  eexists; reflexivity.
Qed.

Lemma fold_add_shift l a : fold_left Z.add l a = (a + fold_left Z.add l 0)%Z.
Proof.
  revert a. induction l as [|x l IH]; intros a; cbn [fold_left]; [lia|].
  rewrite (IH (a + x)%Z), (IH (0 + x)%Z). lia.
Qed.

Lemma py_sum_cons x l : py_sum (x :: l) = (x + py_sum l)%Z.
Proof. unfold py_sum. cbn [fold_left]. rewrite fold_add_shift. lia. Qed.

Lemma int_dict_count k d :
  py_sum (map snd (int_dict_set k (int_dict_get k d 0 + 1)%Z d)) =
  (py_sum (map snd d) + 1)%Z.
Proof.
  induction d as [|[k' v] d IH]; [reflexivity|].
  cbn [int_dict_get int_dict_set]. destruct (k =? k')%Z; cbn [map snd].
  - rewrite !py_sum_cons. lia.
  - rewrite !py_sum_cons, IH. lia.
Qed.

Lemma visit_ok root node depth n acc :
  walk_ok acc -> walk_ok (visit root node depth n acc).
Proof.
  intros (Hpos & Hdepth & Hleaf). unfold visit.
  assert (Hacc1 : walk_ok
    match value n with
    | Some v =>
        if (Z.of_nat (length v) >? 0)%Z then
          mkWalk (node_sizes acc ++ [Z.of_nat (length v)])
            (int_dict_set depth
               (int_dict_get depth (depth_counts acc) 0 + 1)%Z
               (depth_counts acc))
            (leaf_count acc)
        else acc
    | None => acc
    end).
  { destruct (value n) as [v|]; [|now repeat split].
    destruct (Z.gtb_spec (Z.of_nat (length v)) 0) as [Hv|_]; [|now repeat split].
    repeat split; cbn [node_sizes depth_counts leaf_count].
    - apply Forall_app. split; [exact Hpos|]. now repeat constructor.
    - rewrite int_dict_count, Hdepth, length_app. simpl. lia.
    - exact Hleaf. }
  destruct Hacc1 as (H1 & H2 & H3).
  destruct (_ && _); repeat split; cbn [node_sizes depth_counts leaf_count];
    try assumption. lia.
Qed.

Lemma collect_loop_ok (ns : list TreeNode) root :
  forall fuel stack acc acc',
    walk_ok acc ->
    collect_loop fuel ns root stack acc = Some acc' -> walk_ok acc'.
Proof.
  induction fuel as [|fuel IH]; intros stack acc acc' Hok Hrun;
    destruct stack as [|[i d] rest]; cbn [collect_loop] in Hrun;
    try discriminate; try (injection Hrun as <-; exact Hok).
  destruct (ns !! i) as [n|]; [|discriminate].
  eapply IH; [|exact Hrun]. now apply visit_ok.
Qed.







Lemma collect_returns rank (ns : list TreeNode) root :
  ranked rank ns -> root < length ns ->
  exists fuel0 acc, walk_ok acc /\
    forall fuel, fuel0 <= fuel ->
      collect_loop fuel ns root [(root, 0%Z)] (mkWalk [] [] 0) = Some acc.
Proof.
  intros Hrk Hroot.
  set (fuel0 := stack_work (max_children ns) rank [(root, 0%Z)]).
  destruct (collect_loop_ends ns rank root Hrk fuel0 [(root, 0%Z)]
              (mkWalk [] [] 0)) as (acc & Hacc).
  - now repeat constructor.
  - reflexivity.
  - exists fuel0, acc. split.
    + eapply collect_loop_ok; [|exact Hacc].
      repeat split; simpl; [constructor|lia].
    + intros fuel Hle. eapply collect_loop_more_fuel; eauto.
Qed.

(** X17.  On a tree without cycles [_collect_node_stats] returns (with
    enough turns of its loop, always the same result) and never raises: the
    average is never a division by zero.  It returns [None] exactly when
    the cache is disabled. *)
Theorem collect_node_stats_returns rank cache (ns : list TreeNode) :
  ranked rank ns ->
  root_node cache < length ns ->
  exists fuel0 r,
    (forall fuel, fuel0 <= fuel ->
       _collect_node_stats fuel cache ns = Some (Ok r)) /\
    (r = None <-> disable cache = true).
Proof.
  intros Hrk Hroot. unfold _collect_node_stats.
  destruct (disable cache) eqn:Hd.
  - exists 0, None. split; [reflexivity|tauto].
  - destruct (collect_returns rank ns (root_node cache) Hrk Hroot)
      as (fuel0 & acc & _ & Hrun).
    destruct (build_stats_ok acc) as (stats & Hstats).
    exists fuel0, (Some stats). split.
    + intros fuel Hle. now rewrite (Hrun fuel Hle), Hstats.
    + split; discriminate.
Qed.


Lemma collect_stats_total rank cache (ns : list TreeNode) :
  disable cache = true \/ (ranked rank ns /\ root_node cache < length ns) ->
  exists fuel0 stats, forall fuel, fuel0 <= fuel ->
    _collect_node_stats fuel cache ns = Some (Ok stats).
Proof.
  intros Hwf. unfold _collect_node_stats.
  destruct (disable cache) eqn:Hd; [exists 0, None; reflexivity|].
  destruct Hwf as [Hdis|(Hrk & Hroot)]; [discriminate|].
  destruct (collect_returns rank ns (root_node cache) Hrk Hroot)
    as (fuel0 & acc & _ & Hrun).
  destruct (build_stats_ok acc) as (stats & Hstats).
  exists fuel0, (Some stats). intros fuel Hle.
  now rewrite (Hrun fuel Hle), Hstats.
Qed.

Lemma collect_node_stats_more_fuel fuel fuel' cache (ns : list TreeNode) r :
  _collect_node_stats fuel cache ns = Some r -> fuel <= fuel' ->
  _collect_node_stats fuel' cache ns = Some r.
Proof.
  unfold _collect_node_stats. intros Hrun Hle.
  destruct (disable cache); [exact Hrun|].
  destruct (collect_loop fuel ns (root_node cache) _ _) as [acc|] eqn:Hloop;
    [|discriminate].
  now rewrite (collect_loop_more_fuel _ _ _ _ _ _ Hloop _ Hle).
Qed.

Lemma take_snapshot_due fuel now cache ns (self : CacheTimeSeriesTracker.t) stats :
  (snapshot_interval self <= now - _last_snapshot_time self)%Q ->
  _collect_node_stats fuel cache ns = Some (Ok stats) ->
  take_snapshot fuel now cache ns self =
  Some (Ok (Some (CacheSnapshot.mk now (total_size cache) (evictable_size cache)
                    (protected_size cache)
                    (from_option (fun size => size) 0%Z
                       (token_to_kv_pool_allocator cache))
                    (_hit_tokens self) (_requested_tokens self)
                    (_total_requests self) stats),
            CacheTimeSeriesTracker.mk (max_history_seconds self)
              (snapshot_interval self)
              (prune (now - max_history_seconds self)
                 (_snapshots self ++
                  [CacheSnapshot.mk now (total_size cache) (evictable_size cache)
                     (protected_size cache)
                     (from_option (fun size => size) 0%Z
                        (token_to_kv_pool_allocator cache))
                     (_hit_tokens self) (_requested_tokens self)
                     (_total_requests self) stats]))
              (_total_requests self) (_hit_tokens self)
              (_requested_tokens self) now)).
Proof.
  intros Hdue Hstats. unfold take_snapshot.
  now rewrite (proj2 (py_lt_false _ _) Hdue), Hstats.
Qed.

(** X14.  On a tree without cycles (or with the cache disabled) a
    [take_snapshot] that is due returns a snapshot holding the time, the
    sizes read from the cache, the pool size (0 without an allocator), the
    tracker's counters and the node statistics; the counters are unchanged
    and the time of the last snapshot is [now].  When the history length is
    not negative the new snapshot is the latest entry of the history. *)
Theorem take_snapshot_records rank now cache ns (self : CacheTimeSeriesTracker.t) :
  disable cache = true \/ (ranked rank ns /\ root_node cache < length ns) ->
  (snapshot_interval self <= now - _last_snapshot_time self)%Q ->
  exists fuel0 stats, forall fuel, fuel0 <= fuel ->
    _collect_node_stats fuel cache ns = Some (Ok stats) /\
    exists self',
      let snapshot :=
        CacheSnapshot.mk now (total_size cache) (evictable_size cache)
          (protected_size cache)
          (from_option (fun size => size) 0%Z (token_to_kv_pool_allocator cache))
          (_hit_tokens self) (_requested_tokens self) (_total_requests self)
          stats in
      take_snapshot fuel now cache ns self = Some (Ok (Some snapshot, self')) /\
      _last_snapshot_time self' = now /\
      _total_requests self' = _total_requests self /\
      _hit_tokens self' = _hit_tokens self /\
      _requested_tokens self' = _requested_tokens self /\
      ((0 <= max_history_seconds self)%Q ->
       last (_snapshots self') = Some snapshot).
Proof.
  intros Hwf Hdue.
  destruct (collect_stats_total rank cache ns Hwf) as (fuel0 & stats & Hrun).
  exists fuel0, stats. intros fuel Hle. split; [now apply Hrun|].
  eexists. cbn zeta. split; [apply take_snapshot_due; auto|].
  cbn. repeat split. intros Hmh. apply prune_keeps_last. cbn. lra.
Qed.

(** X19.  On a tree without cycles (or with the cache disabled), after a
    [take_snapshot] that is due, with a history length that is not
    negative, [get_stats_dict] reports the sizes just read from the cache,
    the tracker's request count, the node statistics of the traversal and
    as utilization what [total_size / pool size] evaluates to (0.0 without
    a pool); it raises [OverflowError] when that quotient is beyond the
    doubles.  The statistics are those [_collect_node_stats] returns for
    every large enough budget. *)
Theorem stats_after_snapshot rank now cache ns (self : CacheTimeSeriesTracker.t) :
  disable cache = true \/ (ranked rank ns /\ root_node cache < length ns) ->
  (snapshot_interval self <= now - _last_snapshot_time self)%Q ->
  (0 <= max_history_seconds self)%Q ->
  exists fuel0 stats, forall fuel, fuel0 <= fuel ->
    _collect_node_stats fuel cache ns = Some (Ok stats) /\
    exists snapshot self',
      take_snapshot fuel now cache ns self = Some (Ok (Some snapshot, self')) /\
      let pool :=
        from_option (fun size => size) 0%Z (token_to_kv_pool_allocator cache) in
      ((pool > 0)%Z ->
       py_truediv (total_size cache) pool = Raise OverflowError ->
       get_stats_dict self' = Raise OverflowError) /\
      (forall u,
         ((pool > 0)%Z /\ py_truediv (total_size cache) pool = Ok u) \/
         ((pool <= 0)%Z /\ u = S754_zero false) ->
         exists d, get_stats_dict self' = Ok d /\
           dict_get "utilization" d = Some (PyFloat u) /\
           dict_get "total_tokens" d = Some (PyInt (total_size cache)) /\
           dict_get "evictable_tokens" d = Some (PyInt (evictable_size cache)) /\
           dict_get "protected_tokens" d = Some (PyInt (protected_size cache)) /\
           dict_get "total_requests" d = Some (PyInt (_total_requests self)) /\
           dict_get "node_stats" d =
             option_map (fun st => PyStrDict (NodeStats.to_dict st)) stats).
Proof.
  intros Hwf Hdue Hmh.
  destruct (collect_stats_total rank cache ns Hwf) as (fuel0 & stats & Hrun).
  exists fuel0, stats. intros fuel Hle. split; [now apply Hrun|].
  do 2 eexists. split; [apply take_snapshot_due; auto|].
  cbn zeta.
  match goal with
  | |- context [get_stats_dict ?t] =>
      assert (Hlast : last (_snapshots t) =
                Some (CacheSnapshot.mk now (total_size cache)
                        (evictable_size cache) (protected_size cache)
                        (from_option (fun size => size) 0%Z
                           (token_to_kv_pool_allocator cache))
                        (_hit_tokens self) (_requested_tokens self)
                        (_total_requests self) stats))
        by (cbn [_snapshots]; apply prune_keeps_last; cbn; lra)
  end.
  split.
  - intros Hpos Ho. eapply get_stats_dict_overflows; [exact Hlast|exact Hpos|exact Ho].
  - intros u Hu.
    match goal with
    | |- context [get_stats_dict ?t] =>
        destruct (get_stats_dict_returns t (total_size cache)
                    (from_option (fun size => size) 0%Z
                       (token_to_kv_pool_allocator cache)) u)
          as (d & Hd & Hut & _ & Htot & Hev & Hpr & Hreq & Hns)
    end; try (now rewrite Hlast); [exact Hu|].
    exists d. rewrite Hlast in Hev, Hpr, Hns. cbn in Hev, Hpr, Hns, Hreq.
    repeat split; assumption.
Qed.

(** ** The properties above on concrete inputs *)

Lemma request_prefetch_frame_witness :
  let w := demo_world 100 in
  let w' := exec (request_prefetch demo_self 0) w in
  length (nodes w') = length (nodes w) /\
  nodes w' !! 1 = nodes w !! 1 /\
  completed w' = completed w.
Proof.
  intros w w'.
  destruct (request_prefetch_frame demo_self 0 w) as (Hlen & Hother & _ & Hc & _).
  split; [exact Hlen|]. split; [apply Hother; discriminate|exact Hc].
Defined.

Lemma tick_effect_witness :
  let w := device_completes 0 (exec (request_prefetch demo_self 0) (demo_world 100)) in
  reachable demo_self w /\
  tick demo_self w = (Ok tt, tick_result w) /\
  trace (tick_result w) = trace w ++ [call_print 7].
Proof.
  intros w.
  assert (Hr : reachable demo_self w)
    by apply reach_device, reach_request, demo_reachable.
  destruct (tick_effect demo_self w Hr) as (Hrun & _ & _ & Htrace).
  split; [exact Hr|]. split; [exact Hrun|exact Htrace].
Defined.

Lemma tick_nothing_loading_witness :
  tick demo_self (demo_world 100) = (Ok tt, demo_world 100).
Proof.
  apply (tick_nothing_loading demo_self (demo_world 100)).
  repeat constructor.
Defined.

Lemma tick_twice_witness :
  let w := device_completes 0 (exec (request_prefetch demo_self 0) (demo_world 100)) in
  tick demo_self (exec (tick demo_self) w) = (Ok tt, exec (tick demo_self) w).
Proof.
  intros w. apply (tick_twice demo_self w).
  apply reach_device, reach_request, demo_reachable.
Defined.

Lemma prefetch_lifecycle_witness :
  let w := demo_world 100 in
  let n := fresh_node 7 None (Some [5; 6]%Z) in
  let w1 := exec (request_prefetch demo_self 0) w in
  let w2 := device_completes (next_event w) w1 in
  nodes (exec (tick demo_self) w1) !! 0 =
    Some (start_prefetch [20; 21]%Z (next_event w) n) /\
  exists n', nodes (exec (tick demo_self) w2) !! 0 = Some n' /\
    value n' = Some [20; 21]%Z /\ is_prefetching n' = false /\
    pending_gpu_indices n' = None /\ host_value n' = Some [5; 6]%Z.
Proof.
  intros w n.
  apply (prefetch_lifecycle demo_self w 0 n [5; 6]%Z [20; 21]%Z
           (mkBumpPool 22 100)).
  - apply demo_reachable.
  - reflexivity.
  - repeat split; discriminate.
  - reflexivity.
  - reflexivity.
  - reflexivity.
Defined.

Lemma demo_two_loading_reachable : reachable demo_self demo_two_loading.
Proof. apply reach_request, reach_request, demo_reachable. Defined.

Lemma reachable_events_fresh_witness :
  0 < next_event demo_two_loading /\ (0 <> 2 -> 0 <> 1).
Proof.
  apply (reachable_events_fresh demo_self demo_two_loading 0 2
           (start_prefetch [20; 21]%Z 0 (fresh_node 7 None (Some [5; 6]%Z)))
           (start_prefetch [] 1 (fresh_node 9 None (Some [])))
           0 1 demo_two_loading_reachable);
    reflexivity.
Defined.

Lemma tick_commits_only_finished_witness :
  let n := start_prefetch [20; 21]%Z 0 (fresh_node 7 None (Some [5; 6]%Z)) in
  let m := start_prefetch [] 1 (fresh_node 9 None (Some [])) in
  let w' := exec (tick demo_self) (device_completes 0 demo_two_loading) in
  nodes w' !! 0 = Some (commit n) /\ nodes w' !! 2 = Some m.
Proof.
  intros n m.
  apply (tick_commits_only_finished demo_self demo_two_loading 0 n 0 2 m
           demo_two_loading_reachable);
    try reflexivity. discriminate.
Defined.

Lemma eviction_order_asymmetric_witness :
  (exists lt, evicted_before LFUStrategy 1 0 scenario_lfu = Some lt) /\
  (evicted_before LFUStrategy 1 0 scenario_lfu = Some true ->
   evicted_before LFUStrategy 0 1 scenario_lfu = Some false).
Proof.
  apply (eviction_order_asymmetric LFUStrategy 1 0 scenario_lfu
           (KTuple 1 double_2) (KTuple 5 double_1)); reflexivity.
Defined.


Lemma steps_farthest_first_witness :
  evicted_before StepsToExecutionStrategy 0 1 (scenario_steps 3) = Some true.
Proof.
  apply (steps_farthest_first 0 1 (scenario_steps 3)
           (meta_node double_1 double_1 0 0 None)
           (meta_node double_1 double_1 0 0 (Some 3%Z)) eq_refl eq_refl).
Defined.

Lemma take_snapshot_rate_limited_witness :
  take_snapshot 0 3 demo_cache demo_tree (post_init 300 5) =
  Some (Ok (None, post_init 300 5)).
Proof.
  apply (take_snapshot_rate_limited 0 3 demo_cache demo_tree (post_init 300 5)).
  reflexivity.
Defined.

Lemma demo_ranked : ranked demo_rank demo_tree.
Proof.
  intros i n Hn. unfold demo_rank.
  destruct i as [|[|[|[|i]]]]; simpl in Hn; try discriminate;
    injection Hn as <-; repeat constructor; simpl; lia.
Defined.

Lemma collect_node_stats_returns_witness :
  exists fuel0 r,
    (forall fuel, fuel0 <= fuel ->
       _collect_node_stats fuel demo_cache demo_tree = Some (Ok r)) /\
    (r = None <-> disable demo_cache = true).
Proof.
  apply (collect_node_stats_returns demo_rank demo_cache demo_tree demo_ranked).
  simpl. lia.
Defined.


Lemma take_snapshot_records_witness :
  exists fuel0 stats, forall fuel, fuel0 <= fuel ->
    _collect_node_stats fuel demo_cache demo_tree = Some (Ok stats) /\
    exists self',
      take_snapshot fuel 7 demo_cache demo_tree
        (record_match 3 5 (post_init 300 5)) =
      Some (Ok (Some (CacheSnapshot.mk 7 153 100 53 1000 3 5 1 stats), self')) /\
      _last_snapshot_time self' = 7%Q /\
      last (_snapshots self') =
      Some (CacheSnapshot.mk 7 153 100 53 1000 3 5 1 stats).
Proof.
  destruct (take_snapshot_records demo_rank 7 demo_cache demo_tree
              (record_match 3 5 (post_init 300 5)))
    as (fuel0 & stats & Hall).
  - right. split; [exact demo_ranked|simpl; lia].
  - vm_compute. discriminate.
  - exists fuel0, stats. intros fuel Hle.
    destruct (Hall fuel Hle) as (Hstats & self' & Hrun & Hlast & _ & _ & _ & Hhist).
    split; [exact Hstats|]. exists self'. split; [exact Hrun|].
    split; [exact Hlast|]. apply Hhist. vm_compute. discriminate.
Defined.


Lemma stats_after_snapshot_witness :
  exists fuel0, forall fuel, fuel0 <= fuel ->
    exists snapshot self' d st,
      take_snapshot fuel 7 demo_cache demo_tree
        (record_match 3 5 (post_init 300 5)) =
      Some (Ok (Some snapshot, self')) /\
      get_stats_dict self' = Ok d /\
      dict_get "utilization" d =
        Some (PyFloat (S754_finite false 5512405943901487 (-55))) /\
      dict_get "total_tokens" d = Some (PyInt 153) /\
      dict_get "evictable_tokens" d = Some (PyInt 100) /\
      dict_get "protected_tokens" d = Some (PyInt 53) /\
      dict_get "total_requests" d = Some (PyInt 1) /\
      dict_get "node_stats" d = Some (PyStrDict (NodeStats.to_dict st)) /\
      NodeStats.node_count st = 2%Z /\
      dict_get "avg_node_tokens" (NodeStats.to_dict st) =
        Some (PyFloat (S754_finite false 5383208929591296 (-46))).
Proof.
  destruct (stats_after_snapshot demo_rank 7 demo_cache demo_tree
              (record_match 3 5 (post_init 300 5)))
    as (fuel0 & stats & Hall).
  - right. split; [exact demo_ranked|simpl; lia].
  - vm_compute. discriminate.
  - vm_compute. discriminate.
  - destruct (_collect_node_stats 50 demo_cache demo_tree) as [r|] eqn:H50;
      [|vm_compute in H50; discriminate].
    pose proof (collect_node_stats_more_fuel _ _ _ _ _ H50
                  (Nat.le_max_r fuel0 50)) as Hmax.
    destruct (Hall _ (Nat.le_max_l fuel0 50)) as (Hstats & _).
    rewrite Hmax in Hstats. injection Hstats as ->.
    vm_compute in H50. injection H50 as Hst.
    destruct stats as [st|]; [|discriminate]. injection Hst as Hst.
    exists fuel0. intros fuel Hle.
    destruct (Hall fuel Hle) as (_ & snapshot & self' & Hrun & _ & Hok).
    destruct (Hok (S754_finite false 5512405943901487 (-55)))
      as (d & Hd & Hut & Htot & Hev & Hpr & Hreq & Hns).
    + left. split; [simpl; lia|reflexivity].
    + exists snapshot, self', d, st. subst st. auto 12.
Defined.

